(** * SenseBox dashboard: ingestion and presentation of [app/app.py]

    The script runs once, top to bottom: it loads the measurement series
    of every sensor of one SenseBox into the table [sensor_data], then
    reads the table back and builds one chart per sensor.  The embedding
    below follows the script block by block.  Everything the script does
    not control is an input of the run, gathered in the record [world]:
    the answers of the openSenseMap API and the failures of the
    database driver.  The API's documents have the shape the API gives
    them (an object with a [sensors] array of objects, a series that is
    an array of objects); any of their fields may be absent, and a
    point's [value] is an arbitrary JSON value.  A body of another
    shape, which the script cannot read, is told apart.  Printed lines
    are kept as a list of [event]s, one constructor per [print] of the
    script.  A run ends in one of three ways: [sys.exit], the served
    layout, or the exception of [px.line] that nothing catches. *)

From Stdlib Require Import ZArith.
From stdpp Require Import base option list strings sorting.

(** ** What the script finds around it *)

(** The configured device, Python's [float] with the conversions of the
    interpreter, and the comparisons of the store.
    [float_of_int n] is [float(n)] on an [int] ([None]: OverflowError),
    [float_of_str s] is [float(s)] on a [str] ([None]: ValueError),
    [float_isnan x] tells a NaN.  [same_instant a b]: the two texts
    denote the same [timestamptz]; [ts_leb] and [text_leb]: the order
    the store uses for [ORDER BY] on a [timestamptz] and on a nullable
    [text]. *)
Class Setting : Type := {
  SENSEBOX_ID : string;
  float : Type;
  float_of_int : Z -> option float;
  float_of_str : string -> option float;
  float_isnan : float -> bool;
  same_instant : string -> string -> bool;
  ts_leb : string -> string -> bool;
  text_leb : option string -> option string -> bool
}.

(** What [requests.get(...)], [raise_for_status()] and [.json()] give
    together: a [RequestException], or the decoded body.  [Misshapen]
    is a decoded body that is not of the shape the script reads, so that
    reading it raises TypeError before anything is printed or inserted:
    a number or [true] in the place of the object or of the array, a
    metadata object whose [sensors] is not an array of objects (null,
    say), a series whose first element is a number. *)
Inductive http (A : Type) : Type :=
  | RequestException
  | Body (a : A)
  | Misshapen.
Arguments RequestException {A}.
Arguments Body {A} a.
Arguments Misshapen {A}.

Section Dashboard.

Context `{setting : Setting}.

(** ** Values that come from outside the script *)

(** A decoded JSON value, as [response.json()] returns it. *)
#[local] Set Warnings "-register-all".
Inductive json : Type :=
  | JNull
  | JBool (b : bool)
  | JInt (n : Z)
  | JFloat (x : float)
  | JStr (s : string)
  | JArr (l : list json)
  | JObj (o : list (string * json)).

#[local] Set Warnings "register-all".

(** A Python value that is a [str] or [None]. *)
Definition pystr : Type := option string.

(** [f"{v}"] of such a value. *)
Definition py_format (v : pystr) : string := default "None" v.

(** Truth value of such a value: [None] and [''] are false. *)
Definition py_truthy (v : pystr) : bool :=
  match v with
  | None => false
  | Some s => negb (String.eqb s "")
  end.

(** The exceptions [float()] can raise. *)
Inductive exn : Type := ValueError | TypeError | OverflowError.

(** [float(v)] for a decoded JSON value [v].  [bool] is a subclass of
    [int]; a list or a dict is refused with TypeError, and so is [None]. *)
Definition py_float (v : json) : exn + float :=
  match v with
  | JNull => inl TypeError
  | JBool b => from_option inr (inl OverflowError) (float_of_int (Z.b2z b))
  | JInt n => from_option inr (inl OverflowError) (float_of_int n)
  | JFloat x => inr x
  | JStr s => from_option inr (inl ValueError) (float_of_str s)
  | JArr _ => inl TypeError
  | JObj _ => inl TypeError
  end.

(** ** The API's documents *)

(** One element of the metadata's [sensors] array: an object whose
    fields may be absent ([None]); a present [sensorType], [unit] or
    [icon] holds a string or [null]. *)
Record sensor_entry : Type := SensorEntry {
  s_id : option string;
  s_sensorType : option pystr;
  s_unit : option pystr;
  s_icon : option pystr
}.

(** The decoded metadata body: [null], or an object with or without a
    [sensors] field and with the names of its other fields. *)
Inductive metadata : Type :=
  | MetaNull
  | MetaObj (sensors : option (list sensor_entry)) (others : list string).

(** One element of a sensor's series: an object whose [createdAt] and
    [value] may be absent; [value], when present, is any JSON value. *)
Record item : Type := Item {
  createdAt : option string;
  value : option json
}.

(** What the driver does with one sensor's [executemany] and [commit]:
    both succeed; [executemany] raises after [k] rows were executed
    (the script does not roll back: these rows stay in the open
    transaction); or [commit] raises, which ends the transaction without
    committing it. *)
Inductive db_outcome : Type :=
  | DbOk
  | DbExecuteError (k : nat)
  | DbCommitError.

(** What the driver does with the dashboard's read. *)
Inductive read_outcome : Type :=
  | ReadOk
  | ReadConnectError
  | ReadQueryError.

(** The answers of the driver are the answers of one server, and the
    script never rolls back: after a statement that the server refused,
    the transaction is in PostgreSQL's failed state and the driver
    raises on the first statement of every later batch
    ([DbExecuteError 0]).  The example worlds answer so. *)
Record world : Type := World {
  db_connect : bool;
  metadata_response : http metadata;
  series_response : string -> http (list item);
  db_insert : string -> db_outcome;
  db_read : read_outcome
}.

(** ** The table [sensor_data] *)

(** A tuple of [data_to_insert], which is also a row of the table. *)
Record row : Type := Row {
  r_timestamp : string;
  r_box_id : string;
  r_sensor_id : string;
  r_measurement : option float;
  r_unit : pystr;
  r_sensor_type : pystr;
  r_icon : pystr
}.

Definition table : Type := list row.

(** Modelled from the spec: the table's definition ([init.sql]) is not
    part of the sources; the spec gives its columns and the unique
    constraint on [(timestamp, box_id, sensor_id)].  Two rows conflict
    when they agree on these three columns. *)
Definition conflicts (r r' : row) : bool :=
  same_instant (r_timestamp r) (r_timestamp r')
  && String.eqb (r_box_id r) (r_box_id r')
  && String.eqb (r_sensor_id r) (r_sensor_id r').

(** [INSERT ... ON CONFLICT (timestamp, box_id, sensor_id) DO NOTHING]
    for one tuple. *)
Definition insert_row (t : table) (r : row) : table :=
  if existsb (conflicts r) t then t else t ++ [r].

(** [cursor.executemany(insert_query, batch)]: one insert per tuple, in
    order. *)
Definition executemany (t : table) (batch : list row) : table :=
  fold_left insert_row batch t.

(** The insert connection: the committed table and the table as the open
    transaction sees it. *)
Record conn : Type := Conn {
  committed : table;
  working : table
}.

Definition conn_open (t : table) : conn := Conn t t.

Definition conn_execute (c : conn) (batch : list row) : conn :=
  Conn (committed c) (executemany (working c) batch).

Definition conn_commit (c : conn) : conn := Conn (working c) (working c).

Definition conn_rollback (c : conn) : conn := Conn (committed c) (committed c).

(** ** Printed lines *)

Inductive event : Type :=
  | StartingLoad
  | FetchingMetadata
  | ErrInvalidMetadata
  | FetchingSensor (sensor : string) (type : pystr)
  | WarnConvert (sensor : string) (v : json) (at_ : string)
  | Inserted (n : nat) (sensor : string)
  | NoValidPoints (sensor : string)
  | NoDataReturned (sensor : string)
  | WarnRequest (sensor : string)
  | WarnUnexpected (sensor : string)
  | LoadComplete
  | ErrApiRequest
  | ErrDatabase
  | ErrUnexpected
  | InsertConnClosed
  | FetchingDashboard
  | FetchedRecords (n : nat)
  | ErrDashboard
  | ReadConnClosed
  | GeneratingGraphs (sensors : list string)
  | NoPlottable (sensor : string)
  | NoGraphs.

(** The lines that the script prints as warnings (lines 82, 100, 102). *)
Definition is_warning (e : event) : bool :=
  match e with
  | WarnConvert _ _ _ | WarnRequest _ | WarnUnexpected _ => true
  | _ => false
  end.

(** ** Ingestion (lines 24 to 119) *)

(** The value stored for one sensor in [sensor_details]. *)
Record details : Type := Details {
  d_type : pystr;
  d_unit : pystr;
  d_icon : pystr
}.

(** Lines 42 to 46: the value built for the entry [s]; [s.get(k, d)] is
    [default d] on the optional field. *)
Definition entry_details (s : sensor_entry) : details :=
  {| d_type := default (Some "unknown") (s_sensorType s);
     d_unit := default (Some "") (s_unit s);
     d_icon := default None (s_icon s) |}.

(** [d[k] = v] on a dict kept in insertion order: a key already there
    keeps its place and takes the new value. *)
Fixpoint dict_set {V : Type} (k : string) (v : V) (d : list (string * V))
  : list (string * V) :=
  match d with
  | [] => [(k, v)]
  | (k', v') :: d' =>
      if String.eqb k k' then (k, v) :: d' else (k', v') :: dict_set k v d'
  end.

(** Lines 41 to 48: the dict comprehension over [metadata['sensors']]
    with its filter ['_id' in s]. *)
Definition sensor_details (sensors : list sensor_entry)
  : list (string * details) :=
  fold_left
    (fun d s =>
       match s_id s with
       | Some i => dict_set i (entry_details s) d
       | None => d
       end)
    sensors [].

(** Lines 72 to 80: the tuple appended for one point. *)
Definition point_row (sensor : string) (d : details) (ts : string)
    (m : option float) : row :=
  {| r_timestamp := ts;
     r_box_id := SENSEBOX_ID;
     r_sensor_id := sensor;
     r_measurement := m;
     r_unit := d_unit d;
     r_sensor_type := d_type d;
     r_icon := d_icon d |}.

(** What the body of the loop of line 66 does with one point. *)
Inductive point_result : Type :=
  | PointSkipped
  | PointAppended (r : row)
  | PointWarned (e : event)
  | PointRaised (e : exn).

(** Lines 68 to 82.  The handler of line 81 takes ValueError and
    TypeError; any other exception leaves the loop. *)
Definition normalize (sensor : string) (d : details) (it : item)
  : point_result :=
  match createdAt it, value it with
  | Some ts, Some v =>
      match v with
      | JNull => PointAppended (point_row sensor d ts None)
      | _ =>
          match py_float v with
          | inr x => PointAppended (point_row sensor d ts (Some x))
          | inl ValueError | inl TypeError =>
              PointWarned (WarnConvert sensor v ts)
          | inl e => PointRaised e
          end
      end
  | _, _ => PointSkipped
  end.

(** Lines 65 to 82: the loop over [sensor_data], with the list
    [data_to_insert] and the lines printed so far. *)
Fixpoint collect (sensor : string) (d : details) (sensor_data : list item)
    (data_to_insert : list row) (out : list event)
  : list event * (exn + list row) :=
  match sensor_data with
  | [] => (out, inr data_to_insert)
  | it :: rest =>
      match normalize sensor d it with
      | PointSkipped => collect sensor d rest data_to_insert out
      | PointAppended r => collect sensor d rest (data_to_insert ++ [r]) out
      | PointWarned e => collect sensor d rest data_to_insert (out ++ [e])
      | PointRaised e => (out, inl e)
      end
  end.

(** Lines 84 to 95: insert and commit of one sensor's batch. *)
Definition insert_batch (w : world) (sensor : string) (c : conn)
    (data_to_insert : list row) : conn * list event :=
  match data_to_insert with
  | [] => (c, [NoValidPoints sensor])
  | _ :: _ =>
      match db_insert w sensor with
      | DbOk =>
          (conn_commit (conn_execute c data_to_insert),
           [Inserted (length data_to_insert) sensor])
      | DbExecuteError k =>
          (conn_execute c (take k data_to_insert), [WarnUnexpected sensor])
      | DbCommitError =>
          (conn_rollback (conn_execute c data_to_insert),
           [WarnUnexpected sensor])
      end
  end.

(** Lines 52 to 102: the body of the loop over [sensor_details.items()].
    Whatever is raised inside is caught at line 99 or 101. *)
Definition process_sensor (w : world) (c : conn) (sd : string * details)
  : conn * list event :=
  let '(sensor, d) := sd in
  let fetching := FetchingSensor sensor (d_type d) in
  match series_response w sensor with
  | RequestException => (c, [fetching; WarnRequest sensor])
  | Body [] => (c, [fetching; NoDataReturned sensor])
  | Body sensor_data =>
      match collect sensor d sensor_data [] [] with
      | (out, inl _) => (c, fetching :: out ++ [WarnUnexpected sensor])
      | (out, inr data_to_insert) =>
          let '(c', out') := insert_batch w sensor c data_to_insert in
          (c', fetching :: out ++ out')
      end
  | Misshapen => (c, [fetching; WarnUnexpected sensor])
  end.

(** Line 51: the loop itself. *)
Fixpoint process_sensors (w : world) (c : conn)
    (registry : list (string * details)) : conn * list event :=
  match registry with
  | [] => (c, [])
  | sd :: rest =>
      let '(c1, out1) := process_sensor w c sd in
      let '(c2, out2) := process_sensors w c1 rest in
      (c2, out1 ++ out2)
  end.

(** Line 36: [not metadata or 'sensors' not in metadata] gives [None];
    otherwise the value of [metadata['sensors']]. *)
Definition metadata_sensors (m : metadata) : option (list sensor_entry) :=
  match m with
  | MetaNull => None
  | MetaObj None _ => None
  | MetaObj (Some sensors) _ => Some sensors
  end.

(** How the ingestion ends: it reaches line 121, or [sys.exit(code)]. *)
Inductive ending : Type :=
  | Completed
  | Exit (code : Z).

(** Lines 24 to 119, from the table [t]: the table when the insert
    connection is closed, the printed lines, and the ending.  Closing
    the connection drops what was executed and not committed.  The
    three handlers of lines 106 to 114 end the process: the first for a
    [RequestException] of the metadata request, the second for a
    database error on opening the connection, the third for whatever
    else is raised before the loop, which is the TypeError of a
    misshapen metadata body. *)
Definition ingest (w : world) (t : table) : table * list event * ending :=
  if negb (db_connect w) then (t, [StartingLoad; ErrDatabase], Exit 1)
  else
    match metadata_response w with
    | RequestException =>
        (t, [StartingLoad; FetchingMetadata; ErrApiRequest; InsertConnClosed],
         Exit 1)
    | Body m =>
        match metadata_sensors m with
        | None =>
            (t, [StartingLoad; FetchingMetadata; ErrInvalidMetadata;
                 InsertConnClosed], Exit 1)
        | Some sensors =>
            let '(c, out) :=
              process_sensors w (conn_open t) (sensor_details sensors) in
            (committed c,
             [StartingLoad; FetchingMetadata] ++ out
               ++ [LoadComplete; InsertConnClosed],
             Completed)
        end
    | Misshapen =>
        (t, [StartingLoad; FetchingMetadata; ErrUnexpected; InsertConnClosed],
         Exit 1)
    end.

(** ** Presentation (lines 122 to 196) *)

(** A row of the data frame: the five columns of the [SELECT]. *)
Record frame_row : Type := FrameRow {
  f_timestamp : string;
  f_measurement : option float;
  f_sensor_id : string;
  f_sensor_type : pystr;
  f_unit : pystr
}.

Definition select (r : row) : frame_row :=
  {| f_timestamp := r_timestamp r;
     f_measurement := r_measurement r;
     f_sensor_id := r_sensor_id r;
     f_sensor_type := r_sensor_type r;
     f_unit := r_unit r |}.

(** [ORDER BY first, next]: the comparison [next] decides only between
    the rows that [first] does not separate. *)
Definition then_by (first next : row -> row -> bool) (a b : row) : bool :=
  if negb (first a b) then false
  else if negb (first b a) then true
  else next a b.

Definition by_sensor_type (a b : row) : bool :=
  text_leb (r_sensor_type a) (r_sensor_type b).

Definition by_sensor_id (a b : row) : bool :=
  text_leb (Some (r_sensor_id a)) (Some (r_sensor_id b)).

Definition by_timestamp (a b : row) : bool :=
  ts_leb (r_timestamp a) (r_timestamp b).

(** [ORDER BY sensor_type, sensor_id, timestamp]. *)
Definition order_leb : row -> row -> bool :=
  then_by by_sensor_type (then_by by_sensor_id by_timestamp).

Definition order_le (a b : row) : Prop := order_leb a b.

(** [WHERE box_id = %s] with [SENSEBOX_ID] for the parameter. *)
Definition where_box (t : table) : table :=
  List.filter (fun r => String.eqb (r_box_id r) SENSEBOX_ID) t.

(** Lines 129 to 135: the query on the table [t]. *)
Definition dashboard_query (t : table) : list frame_row :=
  select <$> merge_sort order_le (where_box t).

(** Lines 123 to 147: [df_all_sensors] and the printed lines.  Both
    handlers keep the empty frame. *)
Definition read_frame (w : world) (t : table) : list frame_row * list event :=
  match db_read w with
  | ReadConnectError => ([], [ErrDashboard])
  | ReadQueryError => ([], [FetchingDashboard; ErrDashboard; ReadConnClosed])
  | ReadOk =>
      let df := dashboard_query t in
      (df, [FetchingDashboard; FetchedRecords (length df); ReadConnClosed])
  end.

(** Lines 156 to 158: a row stays when its measurement is a number;
    a null measurement becomes NaN and is dropped with the NaNs. *)
Definition plottable (r : frame_row) : bool :=
  match f_measurement r with
  | Some x => negb (float_isnan x)
  | None => false
  end.

Definition clean (df : list frame_row) : list frame_row :=
  List.filter plottable df.

(** [Series.unique()]: the distinct values in order of first appearance. *)
Fixpoint unique (l : list string) : list string :=
  match l with
  | [] => []
  | x :: l' => x :: List.filter (fun y => negb (String.eqb y x)) (unique l')
  end.

(** The arguments of [px.line] that the script chooses. *)
Record figure : Type := Figure {
  fig_data : list frame_row;
  fig_title : string;
  fig_xlabel : string;
  fig_ylabel : pystr
}.

(** Line 168. *)
Definition rows_of (df : list frame_row) (sensor : string) : list frame_row :=
  List.filter (fun r => String.eqb (f_sensor_id r) sensor) df.

(** [px.line] with the arguments of lines 176 to 182.  It raises
    TypeError when the label given for the measurement is [None]. *)
Definition px_line (df_sensor : list frame_row) (title : string)
    (yaxis_title : pystr) : option figure :=
  match yaxis_title with
  | Some _ =>
      Some {| fig_data := df_sensor;
              fig_title := title;
              fig_xlabel := "Time";
              fig_ylabel := yaxis_title |}
  | None => None
  end.

(** Lines 171 to 182, for the first row [first] of [df_sensor]; [None]
    when [px.line] raises.  A null of a text column is read as [None]. *)
Definition sensor_figure (df_sensor : list frame_row) (first : frame_row)
    (sensor : string) : option figure :=
  let sensor_type := f_sensor_type first in
  let unit := f_unit first in
  let graph_title :=
    "Type: " +:+ py_format sensor_type +:+ " (ID: " +:+ sensor +:+ ")" in
  let yaxis_title :=
    if py_truthy unit
    then Some (py_format sensor_type +:+ " (" +:+ py_format unit +:+ ")")
    else sensor_type in
  px_line df_sensor graph_title yaxis_title.

(** Lines 167 to 186: the loop over [unique_sensor_ids].  Nothing
    catches the TypeError of [px.line]: it leaves the loop, and the
    list of graphs is [None]. *)
Fixpoint sensor_graphs (df : list frame_row) (ids : list string)
  : option (list figure) * list event :=
  match ids with
  | [] => (Some [], [])
  | sensor :: rest =>
      match rows_of df sensor with
      | [] =>
          let '(graphs, out) := sensor_graphs df rest in
          (graphs, NoPlottable sensor :: out)
      | first :: _ =>
          match sensor_figure (rows_of df sensor) first sensor with
          | Some fig =>
              let '(graphs, out) := sensor_graphs df rest in
              (cons fig <$> graphs, out)
          | None => (None, [])
          end
      end
  end.

(** Lines 153 to 188. *)
Definition make_graphs (df_all_sensors : list frame_row)
  : option (list figure) * list event :=
  match df_all_sensors with
  | [] => (Some [], [NoGraphs])
  | _ :: _ =>
      let df := clean df_all_sensors in
      let unique_sensor_ids := unique (f_sensor_id <$> df) in
      let '(graphs, out) := sensor_graphs df unique_sensor_ids in
      (graphs, GeneratingGraphs unique_sensor_ids :: out)
  end.

(** Line 195: the children of the inner [Div]. *)
Inductive layout : Type :=
  | Graphs (graphs : list figure)
  | Placeholder (message : string).

Definition app_layout (graphs : list figure) : layout :=
  match graphs with
  | [] => Placeholder "No data available to display graphs."
  | _ :: _ => Graphs graphs
  end.

(** ** The whole script *)

(** The process ended with [sys.exit(code)], or it reached line 199 with
    a layout to serve, or it died of the TypeError of line 176, which
    nothing catches.  All carry the table and the printed lines. *)
Inductive outcome : Type :=
  | Exited (code : Z) (t : table) (out : list event)
  | Serving (t : table) (out : list event) (children : layout)
  | Died (t : table) (out : list event).

Definition run (w : world) (t : table) : outcome :=
  match ingest w t with
  | (t', out, Exit code) => Exited code t' out
  | (t', out, Completed) =>
      let '(df, out_read) := read_frame w t' in
      let '(graphs, out_graphs) := make_graphs df in
      match graphs with
      | Some graphs =>
          Serving t' (out ++ out_read ++ out_graphs) (app_layout graphs)
      | None => Died t' (out ++ out_read ++ out_graphs)
      end
  end.

Definition final_table (o : outcome) : table :=
  match o with
  | Exited _ t _ => t
  | Serving t _ _ => t
  | Died t _ => t
  end.

Definition printed (o : outcome) : list event :=
  match o with
  | Exited _ _ out => out
  | Serving _ out _ => out
  | Died _ out => out
  end.

(** The code of the [sys.exit] that ended the process, if one did. *)
Definition exit_code (o : outcome) : option Z :=
  match o with
  | Exited code _ _ => Some code
  | Serving _ _ _ => None
  | Died _ _ => None
  end.

(** The status with which the process ended, if it did: the code of
    [sys.exit], or 1 after an exception that nothing catches. *)
Definition status (o : outcome) : option Z :=
  match o with
  | Exited code _ _ => Some code
  | Serving _ _ _ => None
  | Died _ _ => Some 1%Z
  end.

End Dashboard.

(** ** Notions used in the statements *)

Section Notions.

Context `{setting : Setting}.

(** One step of the comprehension of lines 41 to 48. *)
Definition registry_step (d : list (string * details)) (s : sensor_entry)
  : list (string * details) :=
  match s_id s with
  | Some i => dict_set i (entry_details s) d
  | None => d
  end.

(** The committed table is the beginning of what the transaction sees. *)
Definition conn_ok (c : conn) : Prop := committed c `prefix_of` working c.

(** The registry that the ingestion loops over, when it gets there. *)
Definition ingest_registry (w : world) : option (list (string * details)) :=
  if db_connect w then
    match metadata_response w with
    | RequestException => None
    | Body m => sensor_details <$> metadata_sensors m
    | Misshapen => None
    end
  else None.

(** The tuple that the loop of line 66 appends for a point, if any, and
    the warning it prints for it, if any. *)
Definition accepted (sensor : string) (d : details) (it : item) : option row :=
  match normalize sensor d it with
  | PointAppended r => Some r
  | _ => None
  end.

Definition warning (sensor : string) (d : details) (it : item) : option event :=
  match normalize sensor d it with
  | PointWarned e => Some e
  | _ => None
  end.

(** The table holds the tuple [r], or the row that was there first under
    the key of [r]. *)
Definition held (t : table) (r : row) : Prop :=
  r ∈ t \/ exists r', r' ∈ t /\ conflicts r r' = true.

(** The lines of the presentation are none of the ingestion's. *)
Definition of_presentation (e : event) : bool :=
  match e with
  | FetchingDashboard | FetchedRecords _ | ErrDashboard | ReadConnClosed
  | GeneratingGraphs _ | NoPlottable _ | NoGraphs => true
  | _ => false
  end.

(** The sensor is given up before its batch reaches the driver: the
    fetch raises (line 99), or the body cannot be read or the loop over
    the points raises (line 101). *)
Definition fails_early (w : world) (sensor : string) (d : details) : Prop :=
  match series_response w sensor with
  | RequestException => True
  | Body data =>
      match collect sensor d data [] [] with
      | (_, inl _) => True
      | (_, inr _) => False
      end
  | Misshapen => True
  end.

(** A row of the table has the key of [r]. *)
Definition covered (t : table) (r : row) : Prop := existsb (conflicts r) t = true.

(** The batch that the script builds for a sensor of the registry. *)
Definition batch_of (w : world) (sd : string * details) : list row :=
  match series_response w sd.1 with
  | RequestException => []
  | Body data =>
      match collect sd.1 sd.2 data [] [] with
      | (_, inl _) => []
      | (_, inr batch) => batch
      end
  | Misshapen => []
  end.

Definition total_leb (leb : row -> row -> bool) : Prop :=
  forall a b, leb a b = true \/ leb b a = true.

Definition trans_leb (leb : row -> row -> bool) : Prop :=
  forall a b c, leb a b = true -> leb b c = true -> leb a c = true.

(** [part] occurs in [whole]. *)
Definition includes (part whole : string) : Prop :=
  exists before after, whole = before +:+ part +:+ after.

(** What lines 167 to 184 make of the sensor [s], given the cleaned
    frame [df]: the panel drawn for [s].  The title and the label are
    told for a sensor type and a unit that are texts. *)
Definition panel_of (df : list frame_row) (s : string) (fig : figure) : Prop :=
  exists first rest,
    rows_of df s = first :: rest /\
    first ∈ df /\ f_sensor_id first = s /\
    fig_data fig = first :: rest /\
    fig_xlabel fig = "Time" /\
    includes s (fig_title fig) /\
    (forall ty, f_sensor_type first = Some ty ->
       fig_title fig = "Type: " +:+ ty +:+ " (ID: " +:+ s +:+ ")" /\
       includes ty (fig_title fig)) /\
    (forall u, f_unit first = Some u -> u <> "" ->
       exists y, fig_ylabel fig = Some y /\ includes u y) /\
    (forall ty u, f_sensor_type first = Some ty -> f_unit first = Some u ->
       u <> "" -> fig_ylabel fig = Some (ty +:+ " (" +:+ u +:+ ")")) /\
    (forall ty, f_sensor_type first = Some ty -> f_unit first = Some "" ->
       fig_ylabel fig = Some ty).

(** The label that line 173 gives to the panel of a sensor with the
    first row [first] is [None]. *)
Definition unlabelled (first : frame_row) : Prop :=
  f_sensor_type first = None /\ py_truthy (f_unit first) = false.

(** Line 176 raises for a sensor of the cleaned frame. *)
Definition label_missing (df_all_sensors : list frame_row) : Prop :=
  exists s first rest,
    rows_of (clean df_all_sensors) s = first :: rest /\ unlabelled first.

(** The unique constraint holds in the table: no row has the key of a
    row before it. *)
Definition keys_distinct (t : table) : Prop :=
  StronglySorted (fun earlier later => conflicts later earlier = false) t.

(** The row is one that the ingestion builds for a sensor of the
    registry: it carries the configured device, the id of the sensor and
    the unit, type and icon that the registry holds for it. *)
Definition built_for (registry : list (string * details)) (r : row) : Prop :=
  r_box_id r = SENSEBOX_ID /\
  exists d, (r_sensor_id r, d) ∈ registry /\
    r_unit r = d_unit d /\ r_sensor_type r = d_type d /\ r_icon r = d_icon d.

(** The row belongs to another device than the configured one. *)
Definition other_box (r : row) : bool :=
  negb (String.eqb (r_box_id r) SENSEBOX_ID).

(** The sensor that a line of line 52 announces. *)
Definition fetched (e : event) : option string :=
  match e with
  | FetchingSensor sensor _ => Some sensor
  | _ => None
  end.

(** What the open transaction sees is the committed table followed by
    rows that satisfy [P]. *)
Definition pending_all (P : row -> Prop) (c : conn) : Prop :=
  exists p, working c = committed c ++ p /\ Forall P p.

(** The lines that the loop over the sensors prints (lines 52 to 102). *)
Definition of_sensor_loop (e : event) : bool :=
  match e with
  | FetchingSensor _ _ | WarnConvert _ _ _ | Inserted _ _ | NoValidPoints _
  | NoDataReturned _ | WarnRequest _ | WarnUnexpected _ => true
  | _ => false
  end.

(** The lines that the making of the graphs prints (lines 165 to 188). *)
Definition of_graphs (e : event) : bool :=
  match e with
  | GeneratingGraphs _ | NoPlottable _ | NoGraphs => true
  | _ => false
  end.

(** Lines 22 and 53 to 56: the address of a sensor's series. *)
Definition data_url (sensor_id : string) : string :=
  "https://api.opensensemap.org/boxes/" +:+ SENSEBOX_ID +:+ "/data/" +:+ sensor_id.

(** Two rows of one sensor type come in the order of their timestamps. *)
Definition time_order (a b : frame_row) : Prop :=
  f_sensor_type a = f_sensor_type b ->
  ts_leb (f_timestamp a) (f_timestamp b) = true.

End Notions.

(** ** A setting for the examples

    Readings are whole numbers (every [int] converts, a text converts
    when it is a run of decimal digits), timestamps are compared as
    texts (which is the order of time for ISO 8601 texts of one zone),
    and a null text sorts last. *)

Fixpoint digits_value (s : string) (acc : Z) : option Z :=
  match s with
  | EmptyString => Some acc
  | String c rest =>
      match Ascii.is_nat c with
      | Some n => digits_value rest (10 * acc + Z.of_nat n)
      | None => None
      end
  end.

Definition whole_of_str (s : string) : option Z :=
  match s with
  | EmptyString => None
  | String c rest => digits_value s 0
  end.

Definition nulls_last_leb (a b : option string) : bool :=
  match a, b with
  | _, None => true
  | None, Some _ => false
  | Some x, Some y => String.leb x y
  end.

Definition whole_setting : Setting :=
  {| SENSEBOX_ID := "box1";
     float := Z;
     float_of_int := Some;
     float_of_str := whole_of_str;
     float_isnan := fun _ => false;
     same_instant := String.eqb;
     ts_leb := String.leb;
     text_leb := nulls_last_leb |}.

(** The world in which every call succeeds, for the metadata [m] and the
    series [series]. *)
Definition calm_world `{Setting} (m : metadata)
    (series : string -> http (list item)) : world :=
  {| db_connect := true;
     metadata_response := Body m;
     series_response := series;
     db_insert := fun _ => DbOk;
     db_read := ReadOk |}.

(** The same world with another metadata body. *)
Definition with_metadata `{Setting} (w : world) (m : metadata) : world :=
  {| db_connect := db_connect w;
     metadata_response := Body m;
     series_response := series_response w;
     db_insert := db_insert w;
     db_read := db_read w |}.

(** ** Example documents and worlds *)

Section Examples.

#[local] Existing Instance whole_setting.

Definition temperature_entry : sensor_entry :=
  SensorEntry (Some "s1") (Some (Some "Temperature")) (Some (Some "C"))
    (Some (Some "osem-thermometer")).

Definition bare_entry : sensor_entry := SensorEntry (Some "s2") None None None.

Definition anonymous_entry : sensor_entry :=
  SensorEntry None (Some (Some "Humidity")) (Some (Some "%")) None.

(** The reading [n] as a measurement. *)
Definition reading (n : Z) : option float := Some n.

Definition good_point : item := Item (Some "2024-01-01T00:00:00Z") (Some (JInt 21)).
Definition null_point : item := Item (Some "2024-01-01T00:01:00Z") (Some JNull).
Definition text_point : item := Item (Some "2024-01-01T00:02:00Z") (Some (JStr "abc")).
Definition untimed_point : item := Item None (Some (JInt 3)).
Definition valueless_point : item := Item (Some "2024-01-01T00:03:00Z") None.

(** A box with two sensors; the series of [s1] holds one point of every
    kind, the one of [s2] a single reading. *)
Definition two_sensors : metadata :=
  MetaObj (Some [temperature_entry; bare_entry]) ["name"].

Definition two_series (sensor : string) : http (list item) :=
  if String.eqb sensor "s1"
  then Body [good_point; null_point; text_point; untimed_point; valueless_point]
  else if String.eqb sensor "s2" then Body [good_point]
  else RequestException.

Definition two_sensor_world : world := calm_world two_sensors two_series.

(** A box whose [sensors] array is empty. *)
Definition no_sensor_world : world :=
  calm_world (MetaObj (Some []) ["name"]) (fun _ => Body []).

(** The database refuses the insert connection. *)
Definition no_database_world : world :=
  {| db_connect := false;
     metadata_response := Body two_sensors;
     series_response := two_series;
     db_insert := fun _ => DbOk;
     db_read := ReadOk |}.

(** The commit of [s1] fails and so does the dashboard's query. *)
Definition failing_database_world : world :=
  {| db_connect := true;
     metadata_response := Body two_sensors;
     series_response := two_series;
     db_insert := fun sensor => if String.eqb sensor "s1" then DbCommitError else DbOk;
     db_read := ReadQueryError |}.

(** One sensor, whose series holds a point without [createdAt], a point
    without [value] and a reading. *)
Definition lacking_world : world :=
  calm_world (MetaObj (Some [temperature_entry]) ["name"])
    (fun _ => Body [untimed_point; valueless_point; good_point]).

(** The series of [s1] cannot be fetched. *)
Definition failing_fetch_world : world :=
  calm_world two_sensors
    (fun sensor => if String.eqb sensor "s1" then RequestException
                   else two_series sensor).

(** A second entry for the id [s1], with another type. *)
Definition relabelled_entry : sensor_entry :=
  SensorEntry (Some "s1") (Some (Some "Heat")) (Some (Some "K")) None.

(** An entry whose [sensorType] is a literal null and that has no
    [unit]: [{"_id": "s3", "sensorType": null}]. *)
Definition untyped_entry : sensor_entry :=
  SensorEntry (Some "s3") (Some None) None None.

(** A box with the sensor [s1] and the untyped sensor [s3], each with
    one reading. *)
Definition untyped_world : world :=
  calm_world (MetaObj (Some [temperature_entry; untyped_entry]) ["name"])
    (fun _ => Body [good_point]).

(** A point whose [createdAt] is no timestamp. *)
Definition mistimed_point : item := Item (Some "not-a-time") (Some (JInt 22)).

(** The series of [s1] holds a reading and a point whose [createdAt] the
    server cannot take as a [timestamptz]: [executemany] raises on the
    second tuple of the batch of [s1], with one statement done.  The
    transaction is then in PostgreSQL's failed state; nothing rolls it
    back, so the driver raises on the first statement of the batch of
    [s2], whose series is a single valid reading. *)
Definition refused_row_world : world :=
  {| db_connect := true;
     metadata_response := Body two_sensors;
     series_response :=
       fun sensor => if String.eqb sensor "s1"
                     then Body [good_point; mistimed_point]
                     else two_series sensor;
     db_insert :=
       fun sensor => if String.eqb sensor "s1" then DbExecuteError 1
                     else DbExecuteError 0;
     db_read := ReadOk |}.

(** The connection is lost at the commit of [s1]: the commit raises, and
    so does the [executemany] of [s2] on its first statement. *)
Definition lost_connection_world : world :=
  {| db_connect := true;
     metadata_response := Body two_sensors;
     series_response := two_series;
     db_insert :=
       fun sensor => if String.eqb sensor "s1" then DbCommitError
                     else DbExecuteError 0;
     db_read := ReadOk |}.

(** The metadata body is [{"name": ..., "sensors": null}]: it passes the
    test of line 36 and the comprehension of line 41 raises. *)
Definition null_sensors_world : world :=
  {| db_connect := true;
     metadata_response := Misshapen;
     series_response := two_series;
     db_insert := fun _ => DbOk;
     db_read := ReadOk |}.

(** A row of the device that an earlier run stored. *)
Definition stored_row : row :=
  Row "2023-12-31T23:59:00Z" "box1" "s1" (reading 20) (Some "C")
    (Some "Temperature") None.

End Examples.

(** A setting in which [float()] takes the integers below 1000 in
    absolute value only, and a world of that setting: one sensor, whose
    series holds a reading and an integer that [float()] refuses. *)
Definition narrow_setting : Setting :=
  {| SENSEBOX_ID := "box1";
     float := Z;
     float_of_int := fun n => if (Z.abs n <? 1000)%Z then Some n else None;
     float_of_str := whole_of_str;
     float_isnan := fun _ => false;
     same_instant := String.eqb;
     ts_leb := String.leb;
     text_leb := nulls_last_leb |}.

Section NarrowExamples.

#[local] Existing Instance narrow_setting.

Definition small_point : item := Item (Some "2024-01-01T00:00:00Z") (Some (JInt 21)).
Definition huge_point : item := Item (Some "2024-01-01T00:01:00Z") (Some (JInt 1000)).

Definition overflow_world : world :=
  calm_world (MetaObj (Some [temperature_entry]) ["name"])
    (fun _ => Body [small_point; huge_point]).

End NarrowExamples.

(** * Properties *)

Section Registry.

Context `{setting : Setting}.

Lemma dict_set_elem {V : Type} (k : string) (v : V) d i x :
  (i, x) ∈ dict_set k v d -> (i, x) = (k, v) \/ (i, x) ∈ d.
Proof.
  induction d as [|[k' v'] d IH]; simpl.
  - intros ->%list_elem_of_singleton. by left.
  - destruct (String.eqb k k'); intros [->|Hin]%elem_of_cons.
    + by left.
    + right. by apply elem_of_cons; right.
    + right. by apply elem_of_cons; left.
    + destruct (IH Hin) as [?|?]; [by left|].
      right. by apply elem_of_cons; right.
Qed.

Lemma sensor_details_fold sensors :
  sensor_details sensors = fold_left registry_step sensors [].
Proof. reflexivity. Qed.

Lemma registry_fold_elem sensors acc i x :
  (i, x) ∈ fold_left registry_step sensors acc ->
  (i, x) ∈ acc \/
  exists s, s ∈ sensors /\ s_id s = Some i /\ x = entry_details s.
Proof.
  revert acc. induction sensors as [|s sensors IH]; simpl; intros acc Hin.
  - by left.
  - destruct (IH _ Hin) as [Hacc|(s' & Hs' & Hid & Hx)].
    + unfold registry_step in Hacc. destruct (s_id s) as [k|] eqn:Hk.
      * destruct (dict_set_elem _ _ _ _ _ Hacc) as [Heq|?]; [|by left].
        inversion Heq; subst. right. exists s.
        split; [by apply elem_of_cons; left|done].
      * by left.
    + right. exists s'. split; [by apply elem_of_cons; right|done].
Qed.

(** C7 (as amended).  Every value of the registry is built from an entry
    of the metadata that carries the key as its [_id]; a missing [unit]
    is stored as the empty string and a missing [icon] as [None], while
    a missing [sensorType] is stored as the text ['unknown']. *)
Theorem sensor_details_defaults sensors i d :
  (i, d) ∈ sensor_details sensors ->
  exists s, s ∈ sensors /\ s_id s = Some i /\
    (s_sensorType s = None -> d_type d = Some "unknown") /\
    (s_unit s = None -> d_unit d = Some "") /\
    (s_icon s = None -> d_icon d = None).
Proof.
  intros Hin. rewrite sensor_details_fold in Hin.
  destruct (registry_fold_elem _ _ _ _ Hin) as [Hnil|(s & Hs & Hid & ->)].
  - by apply elem_of_nil in Hnil.
  - exists s. repeat split; try done; intros Hnone; simpl; by rewrite Hnone.
Qed.

(** The registry does not see an entry without [_id]. *)
Lemma sensor_details_skip l1 e l2 :
  s_id e = None ->
  sensor_details (l1 ++ e :: l2) = sensor_details (l1 ++ l2).
Proof.
  intros He. rewrite !sensor_details_fold, !fold_left_app. simpl.
  unfold registry_step at 2. by rewrite He.
Qed.

(** The loop over the sensors reads the world only through the series
    and the driver's answers for the inserts. *)
Lemma process_sensor_ext (w w' : world) c sd :
  (forall i, series_response w i = series_response w' i) ->
  (forall i, db_insert w i = db_insert w' i) ->
  process_sensor w c sd = process_sensor w' c sd.
Proof.
  intros Hs Hd. destruct sd as [sensor d]. unfold process_sensor, insert_batch.
  by rewrite Hs, Hd.
Qed.

Lemma process_sensors_ext (w w' : world) c registry :
  (forall i, series_response w i = series_response w' i) ->
  (forall i, db_insert w i = db_insert w' i) ->
  process_sensors w c registry = process_sensors w' c registry.
Proof.
  intros Hs Hd. revert c. induction registry as [|sd registry IH]; intros c.
  - done.
  - simpl. rewrite (process_sensor_ext w w') by done.
    destruct (process_sensor w' c sd) as [c1 out1]. by rewrite IH.
Qed.

(** C10.  An entry of [sensors] without [_id] leaves no trace: the
    registry, and with it the whole run (the fetches, the printed lines,
    the table and the layout), is the one of the metadata without that
    entry. *)
Theorem entry_without_id_excluded (w : world) t l1 e l2 others :
  s_id e = None ->
  metadata_response w = Body (MetaObj (Some (l1 ++ e :: l2)) others) ->
  sensor_details (l1 ++ e :: l2) = sensor_details (l1 ++ l2) /\
  (forall i d, (i, d) ∈ sensor_details (l1 ++ e :: l2) ->
     exists s, s ∈ l1 ++ l2 /\ s_id s = Some i) /\
  run w t = run (with_metadata w (MetaObj (Some (l1 ++ l2)) others)) t.
Proof.
  intros He Hw. split; [by apply sensor_details_skip|]. split.
  - intros i d Hin. rewrite sensor_details_skip in Hin by done.
    rewrite sensor_details_fold in Hin.
    destruct (registry_fold_elem _ _ _ _ Hin) as [Hnil|(s & Hs & Hid & _)].
    + by apply elem_of_nil in Hnil.
    + by exists s.
  - unfold run, ingest. rewrite Hw. simpl.
    rewrite sensor_details_skip by done.
    by rewrite (process_sensors_ext w
                  (with_metadata w (MetaObj (Some (l1 ++ l2)) others))).
Qed.

End Registry.

Section Store.

Context `{setting : Setting}.

(** An insert only ever appends: the rows present stay as they are. *)
Lemma insert_row_prefix t r : t `prefix_of` insert_row t r.
Proof.
  unfold insert_row. destruct (existsb (conflicts r) t).
  - done.
  - by apply prefix_app_r.
Qed.

Lemma executemany_prefix t batch : t `prefix_of` executemany t batch.
Proof.
  revert t. induction batch as [|r batch IH]; intros t; simpl.
  - done.
  - etrans; [apply insert_row_prefix|apply IH].
Qed.

Lemma executemany_app t b1 b2 :
  executemany t (b1 ++ b2) = executemany (executemany t b1) b2.
Proof. apply fold_left_app. Qed.

Lemma conn_open_ok t : conn_ok (conn_open t).
Proof. by unfold conn_ok. Qed.

Lemma conn_execute_ok c batch : conn_ok c -> conn_ok (conn_execute c batch).
Proof.
  unfold conn_ok. simpl. intros Hc. etrans; [done|apply executemany_prefix].
Qed.

Lemma conn_commit_ok c : conn_ok (conn_commit c).
Proof. by unfold conn_ok. Qed.

Lemma conn_rollback_ok c : conn_ok (conn_rollback c).
Proof. by unfold conn_ok. Qed.

Lemma insert_batch_ok (w : world) sensor c batch :
  conn_ok c -> conn_ok (insert_batch w sensor c batch).1.
Proof.
  intros Hc. unfold insert_batch. destruct batch as [|r batch]; [done|].
  destruct (db_insert w sensor); simpl.
  - apply conn_commit_ok.
  - by apply conn_execute_ok.
  - apply conn_rollback_ok.
Qed.

Lemma insert_batch_committed (w : world) sensor c batch :
  conn_ok c ->
  committed c `prefix_of` committed (insert_batch w sensor c batch).1.
Proof.
  intros Hc. unfold insert_batch. destruct batch as [|r batch]; [done|].
  destruct (db_insert w sensor); try done.
  etrans; [apply Hc|apply (executemany_prefix (working c) (r :: batch))].
Qed.

Lemma process_sensor_ok (w : world) c sd :
  conn_ok c -> conn_ok (process_sensor w c sd).1.
Proof.
  intros Hc. destruct sd as [sensor d]. unfold process_sensor.
  destruct (series_response w sensor) as [|[|it data]|]; try done.
  destruct (collect sensor d (it :: data) [] []) as [out [e|batch]]; [done|].
  pose proof (insert_batch_ok w sensor c batch Hc) as Hok.
  by destruct (insert_batch w sensor c batch).
Qed.

Lemma process_sensor_committed (w : world) c sd :
  conn_ok c -> committed c `prefix_of` committed (process_sensor w c sd).1.
Proof.
  intros Hc. destruct sd as [sensor d]. unfold process_sensor.
  destruct (series_response w sensor) as [|[|it data]|]; try done.
  destruct (collect sensor d (it :: data) [] []) as [out [e|batch]]; [done|].
  pose proof (insert_batch_committed w sensor c batch Hc) as Hok.
  by destruct (insert_batch w sensor c batch).
Qed.

Lemma process_sensors_ok (w : world) c registry :
  conn_ok c -> conn_ok (process_sensors w c registry).1.
Proof.
  revert c. induction registry as [|sd registry IH]; intros c Hc; [done|].
  simpl. pose proof (process_sensor_ok w c sd Hc) as H1.
  destruct (process_sensor w c sd) as [c1 out1].
  specialize (IH c1 H1).
  by destruct (process_sensors w c1 registry).
Qed.

(** Whatever happens to the sensors that follow, what was committed
    stays in the table, at its place. *)
Lemma process_sensors_committed (w : world) c registry :
  conn_ok c -> committed c `prefix_of` committed (process_sensors w c registry).1.
Proof.
  revert c. induction registry as [|sd registry IH]; intros c Hc; [done|].
  simpl. pose proof (process_sensor_ok w c sd Hc) as H1.
  pose proof (process_sensor_committed w c sd Hc) as H2.
  destruct (process_sensor w c sd) as [c1 out1].
  specialize (IH c1 H1).
  destruct (process_sensors w c1 registry). simpl in *. by etrans.
Qed.

Lemma process_sensors_app (w : world) c r1 r2 :
  process_sensors w c (r1 ++ r2) =
  let '(c1, out1) := process_sensors w c r1 in
  let '(c2, out2) := process_sensors w c1 r2 in
  (c2, out1 ++ out2).
Proof.
  revert c. induction r1 as [|sd r1 IH]; intros c; simpl.
  - by destruct (process_sensors w c r2).
  - destruct (process_sensor w c sd) as [c1 out1]. rewrite IH.
    destruct (process_sensors w c1 r1) as [c2 out2].
    destruct (process_sensors w c2 r2) as [c3 out3].
    by rewrite app_assoc.
Qed.

(** The lines printed for a sensor do not depend on the connection. *)
Lemma process_sensor_out (w : world) c c' sd :
  (process_sensor w c sd).2 = (process_sensor w c' sd).2.
Proof.
  destruct sd as [sensor d]. unfold process_sensor.
  destruct (series_response w sensor) as [|[|it data]|]; try done.
  destruct (collect sensor d (it :: data) [] []) as [out [e|batch]]; [done|].
  unfold insert_batch. destruct batch; [done|].
  by destruct (db_insert w sensor).
Qed.

Lemma process_sensors_out (w : world) c registry sd e :
  sd ∈ registry ->
  e ∈ (process_sensor w c sd).2 ->
  forall c0, e ∈ (process_sensors w c0 registry).2.
Proof.
  intros Hsd He. induction registry as [|sd' registry IH]; intros c0.
  - by apply elem_of_nil in Hsd.
  - simpl. destruct (process_sensor w c0 sd') as [c1 out1] eqn:H1.
    destruct (process_sensors w c1 registry) as [c2 out2] eqn:H2. simpl.
    apply elem_of_app. apply elem_of_cons in Hsd as [->|Hin].
    + left. rewrite (process_sensor_out w c c0) in He. by rewrite H1 in He.
    + right. specialize (IH Hin c1). by rewrite H2 in IH.
Qed.

End Store.

Section Fatal.

Context `{setting : Setting}.

(** With usable metadata and an open insert connection the ingestion
    runs the loop and completes, whatever the loop meets. *)
Lemma ingest_completed (w : world) t m sensors :
  db_connect w = true ->
  metadata_response w = Body m ->
  metadata_sensors m = Some sensors ->
  ingest w t =
    (committed (process_sensors w (conn_open t) (sensor_details sensors)).1,
     [StartingLoad; FetchingMetadata]
       ++ (process_sensors w (conn_open t) (sensor_details sensors)).2
       ++ [LoadComplete; InsertConnClosed],
     Completed).
Proof.
  intros Hc Hm Hs. unfold ingest. rewrite Hc, Hm, Hs. simpl.
  by destruct (process_sensors w (conn_open t) (sensor_details sensors)).
Qed.

Lemma ingest_table (w : world) t :
  (ingest w t).1.1 =
    match ingest_registry w with
    | Some registry => committed (process_sensors w (conn_open t) registry).1
    | None => t
    end.
Proof.
  unfold ingest, ingest_registry. destruct (db_connect w); [|done]. simpl.
  destruct (metadata_response w) as [|m|]; [done| |done].
  destruct (metadata_sensors m) as [sensors|]; [|done]. simpl.
  by destruct (process_sensors w (conn_open t) (sensor_details sensors)).
Qed.

(** After a completed ingestion no [sys.exit] follows; the table is the
    one the ingestion left and the lines of the dashboard follow the
    ingestion's. *)
Lemma run_completed (w : world) t t' out :
  ingest w t = (t', out, Completed) ->
  exit_code (run w t) = None /\
  final_table (run w t) = t' /\
  printed (run w t) =
    out ++ (read_frame w t').2 ++ (make_graphs (read_frame w t').1).2.
Proof.
  intros Hi. unfold run. rewrite Hi.
  destruct (read_frame w t') as [df out_read]. simpl.
  by destruct (make_graphs df) as [[graphs|] out_graphs].
Qed.

(** C1 (as amended).  When the metadata is fetched and its [sensors]
    array is empty, nothing is written: the loop has no sensor, the
    table is the one before the run, and the process does not exit but
    goes on to the dashboard.  The exit with code 1, before any write,
    is taken when the body is null or has no [sensors] field. *)
Theorem empty_sensors_no_write (w : world) t m :
  db_connect w = true ->
  metadata_response w = Body m ->
  (forall others, m = MetaObj (Some []) others ->
     ingest w t =
       (t, [StartingLoad; FetchingMetadata; LoadComplete; InsertConnClosed],
        Completed) /\
     exit_code (run w t) = None /\ final_table (run w t) = t) /\
  (metadata_sensors m = None ->
     run w t =
       Exited 1 t [StartingLoad; FetchingMetadata; ErrInvalidMetadata;
                   InsertConnClosed]).
Proof.
  intros Hc Hm. split.
  - intros others ->.
    assert (ingest w t =
      (t, [StartingLoad; FetchingMetadata; LoadComplete; InsertConnClosed],
       Completed)) as Hi.
    { unfold ingest. by rewrite Hc, Hm. }
    split; [done|]. by destruct (run_completed _ _ _ _ Hi) as (-> & -> & _).
  - intros Hnone. unfold run, ingest. by rewrite Hc, Hm, Hnone.
Qed.

(** C2 (as amended).  A database error on opening the insert connection
    is printed and ends the process with exit code 1, the table
    untouched.  Once the loop over the sensors runs, no database error
    ends the process: an error of a sensor's [executemany] or [commit]
    is printed as a warning for that sensor, and an error of the
    dashboard's read is printed and leaves the empty frame, for which
    the placeholder is laid out. *)
Theorem database_error_handling (w : world) t :
  (db_connect w = false -> run w t = Exited 1 t [StartingLoad; ErrDatabase]) /\
  (forall m sensors,
     db_connect w = true ->
     metadata_response w = Body m ->
     metadata_sensors m = Some sensors ->
     exit_code (run w t) = None /\
     (forall sensor d data out r batch,
        (sensor, d) ∈ sensor_details sensors ->
        series_response w sensor = Body data ->
        collect sensor d data [] [] = (out, inr (r :: batch)) ->
        db_insert w sensor <> DbOk ->
        WarnUnexpected sensor ∈ printed (run w t)) /\
     (db_read w <> ReadOk ->
        ErrDashboard ∈ printed (run w t) /\
        exists t' out,
          run w t =
            Serving t' out (Placeholder "No data available to display graphs."))).
Proof.
  split.
  - intros Hc. unfold run, ingest. by rewrite Hc.
  - intros m sensors Hc Hm Hs.
    pose proof (ingest_completed w t m sensors Hc Hm Hs) as Hi.
    destruct (run_completed _ _ _ _ Hi) as (Hexit & _ & Hprinted).
    split; [done|]. split.
    + intros sensor d data out r batch Hin Hdata Hcol Hdb. rewrite Hprinted.
      apply elem_of_app; left. apply elem_of_app; right.
      apply elem_of_app; left.
      apply (process_sensors_out w (conn_open t) _ (sensor, d)); [done|].
      unfold process_sensor. rewrite Hdata.
      destruct data as [|it data]; [done|]. rewrite Hcol.
      unfold insert_batch.
      destruct (db_insert w sensor); [done| |]; cbn [snd];
        apply elem_of_cons; right; apply elem_of_app; right;
        by apply list_elem_of_singleton.
    + intros Hr. clear Hexit Hprinted. unfold run. rewrite Hi.
      unfold read_frame.
      destruct (db_read w); [done| |];
        cbn [fst snd make_graphs app_layout printed].
      * split; [|by eauto].
        apply elem_of_app; right. apply elem_of_app; left.
        by apply list_elem_of_singleton.
      * split; [|by eauto].
        apply elem_of_app; right. apply elem_of_app; left.
        apply elem_of_cons; right. apply elem_of_cons; by left.
Qed.

End Fatal.

Section Normalization.

Context `{setting : Setting}.

#[local] Arguments process_sensor : simpl never.

Lemma normalize_lacking sensor d it :
  createdAt it = None \/ value it = None -> normalize sensor d it = PointSkipped.
Proof.
  unfold normalize. intros [-> | ->]; [done|]. by destruct (createdAt it).
Qed.

Lemma normalize_unparsable sensor d it ts v :
  createdAt it = Some ts -> value it = Some v -> v <> JNull ->
  py_float v = inl ValueError \/ py_float v = inl TypeError ->
  normalize sensor d it = PointWarned (WarnConvert sensor v ts).
Proof.
  unfold normalize. intros -> -> Hv [He|He]; rewrite He; by destruct v.
Qed.

Lemma normalize_null sensor d it ts :
  createdAt it = Some ts -> value it = Some JNull ->
  normalize sensor d it = PointAppended (point_row sensor d ts None).
Proof. unfold normalize. by intros -> ->. Qed.

(** A warning of the loop is the one of line 82. *)
Lemma normalize_warned sensor d it e :
  normalize sensor d it = PointWarned e ->
  exists v ts, e = WarnConvert sensor v ts.
Proof.
  unfold normalize. destruct (createdAt it) as [ts|]; [|done].
  destruct (value it) as [v|]; [|done].
  destruct v; try done;
    (destruct (py_float _) as [[]|]; [| | |done]; try done;
     intros [= <-]; eauto).
Qed.

(** When the loop runs to its end, [data_to_insert] holds the tuples of
    the accepted points, in order, and nothing else was printed than the
    warnings of the points refused at line 81. *)
Lemma collect_inr sensor d data acc out out' batch :
  collect sensor d data acc out = (out', inr batch) ->
  batch = acc ++ omap (accepted sensor d) data /\
  out' = out ++ omap (warning sensor d) data.
Proof.
  revert acc out. induction data as [|it data IH]; simpl; intros acc out Hc.
  - inversion Hc; subst. by rewrite !app_nil_r.
  - unfold accepted, warning.
    destruct (normalize sensor d it) as [|r|e|e]; [| | |done].
    + by apply IH in Hc.
    + apply IH in Hc as [-> ->]. by rewrite <- app_assoc.
    + apply IH in Hc as [-> ->]. by rewrite <- app_assoc.
Qed.

(** The loop stops early only when a point raises something else than
    ValueError and TypeError. *)
Lemma collect_total sensor d data acc out :
  (forall it e, it ∈ data -> normalize sensor d it <> PointRaised e) ->
  collect sensor d data acc out =
    (out ++ omap (warning sensor d) data, inr (acc ++ omap (accepted sensor d) data)).
Proof.
  revert acc out. induction data as [|it data IH]; simpl; intros acc out Hno.
  - by rewrite !app_nil_r.
  - assert (forall it' e, it' ∈ data -> normalize sensor d it' <> PointRaised e)
      as Hno' by (intros ? ? ?; apply Hno; by apply elem_of_cons; right).
    pose proof (Hno it) as Hit. unfold accepted, warning.
    destruct (normalize sensor d it) as [|r|e|e].
    + by apply IH.
    + rewrite IH by done. by rewrite <- app_assoc.
    + rewrite IH by done. by rewrite <- app_assoc.
    + exfalso. apply (Hit e); [by apply elem_of_cons; left|done].
Qed.

Lemma accepted_elem sensor d (data : list item) r :
  r ∈ omap (accepted sensor d) data ->
  exists it, it ∈ data /\ normalize sensor d it = PointAppended r.
Proof.
  intros (it & Hit & Hacc)%list_elem_of_omap. exists it. split; [done|].
  unfold accepted in Hacc. destruct (normalize sensor d it); by simplify_eq.
Qed.

Lemma insert_row_elem t r x : x ∈ insert_row t r -> x ∈ t \/ x = r.
Proof.
  unfold insert_row. destruct (existsb (conflicts r) t); [by left|].
  intros [?|?%list_elem_of_singleton]%elem_of_app; auto.
Qed.

Lemma executemany_elem t batch x :
  x ∈ executemany t batch -> x ∈ t \/ x ∈ batch.
Proof.
  revert t. induction batch as [|r batch IH]; simpl; intros t Hx.
  - by left.
  - destruct (IH _ Hx) as [Ht|Hb].
    + destruct (insert_row_elem _ _ _ Ht) as [?| ->]; [by left|].
      right. by apply elem_of_cons; left.
    + right. by apply elem_of_cons; right.
Qed.

(** A row that the transaction sees after a sensor was there before or
    is the tuple of an accepted point of that sensor's series. *)
Lemma process_sensor_rows (w : world) c sensor d x :
  conn_ok c ->
  x ∈ working (process_sensor w c (sensor, d)).1 ->
  x ∈ working c \/
  exists data it, series_response w sensor = Body data /\ it ∈ data /\
    normalize sensor d it = PointAppended x.
Proof.
  intros [k Hok]. unfold process_sensor.
  destruct (series_response w sensor) as [|[|it data]|] eqn:Hs; try by left.
  destruct (collect sensor d (it :: data) [] []) as [out [e|batch]] eqn:Hc;
    [by left|].
  apply collect_inr in Hc as [-> ->]. rewrite !app_nil_l.
  assert (x ∈ omap (accepted sensor d) (it :: data) ->
          exists data' it', Body (it :: data) = Body data' /\
            it' ∈ data' /\ normalize sensor d it' = PointAppended x) as Hb.
  { intros (it' & ? & ?)%accepted_elem. by exists (it :: data), it'. }
  unfold insert_batch.
  destruct (omap (accepted sensor d) (it :: data)) as [|r batch]; [by left|].
  destruct (db_insert w sensor);
    cbn [fst working committed conn_commit conn_execute conn_rollback].
  - intros [?|Hx]%executemany_elem; auto.
  - intros [?|Hx]%executemany_elem; auto.
    right. apply Hb. apply elem_of_take in Hx as (i & Hi & _).
    by eapply list_elem_of_lookup_2.
  - intros Hx. left. rewrite Hok. apply elem_of_app; by left.
Qed.

Lemma process_sensors_rows (w : world) c registry x :
  conn_ok c ->
  x ∈ working (process_sensors w c registry).1 ->
  x ∈ working c \/
  exists sensor d data it, (sensor, d) ∈ registry /\
    series_response w sensor = Body data /\ it ∈ data /\
    normalize sensor d it = PointAppended x.
Proof.
  revert c. induction registry as [|[sensor d] registry IH]; intros c Hok; simpl.
  - by left.
  - pose proof (process_sensor_rows w c sensor d x Hok) as H1.
    pose proof (process_sensor_ok w c (sensor, d) Hok) as Hok1.
    destruct (process_sensor w c (sensor, d)) as [c1 out1].
    specialize (IH c1 Hok1).
    destruct (process_sensors w c1 registry) as [c2 out2]. simpl in *.
    intros Hx. destruct (IH Hx) as [Hc1|(s' & d' & data & it & Hin & ?)].
    + destruct (H1 Hc1) as [?|(data & it & ?)]; [by left|].
      right. exists sensor, d, data, it. split; [by apply elem_of_cons; left|done].
    + right. exists s', d', data, it. split; [by apply elem_of_cons; right|done].
Qed.

(** A printed line of the loop is a line of one of its sensors. *)
Lemma process_sensors_out_inv (w : world) c registry e :
  e ∈ (process_sensors w c registry).2 ->
  exists sd, sd ∈ registry /\ e ∈ (process_sensor w c sd).2.
Proof.
  revert c. induction registry as [|sd registry IH]; intros c; simpl.
  - by intros ?%elem_of_nil.
  - destruct (process_sensor w c sd) as [c1 out1] eqn:H1.
    specialize (IH c1).
    destruct (process_sensors w c1 registry) as [c2 out2]. simpl in *.
    intros [He|He]%elem_of_app.
    + exists sd. rewrite H1. split; [by apply elem_of_cons; left|done].
    + destruct (IH He) as (sd' & Hin & He').
      exists sd'. split; [by apply elem_of_cons; right|].
      by rewrite (process_sensor_out w c c1).
Qed.

(** Whichever way the loop of line 66 ends, it printed only warnings of
    line 82. *)
Lemma collect_out sensor d data acc out out' res e :
  collect sensor d data acc out = (out', res) ->
  e ∈ out' -> e ∈ out \/ exists v ts, e = WarnConvert sensor v ts.
Proof.
  revert acc out. induction data as [|it data IH]; simpl; intros acc out Hc He.
  - inversion Hc; subst. by left.
  - destruct (normalize sensor d it) as [|r|e'|e'] eqn:Hn.
    + by eapply IH.
    + by eapply IH.
    + destruct (IH _ _ Hc He) as [[?| ->%list_elem_of_singleton]%elem_of_app|?];
        [by left| |by right].
      right. by apply normalize_warned in Hn.
    + inversion Hc; subst. by left.
Qed.

(** The count of line 93 is the number of accepted points. *)
Lemma process_sensor_inserted (w : world) c sensor d n s :
  Inserted n s ∈ (process_sensor w c (sensor, d)).2 ->
  s = sensor /\
  exists data, series_response w sensor = Body data /\
    n = length (omap (accepted sensor d) data).
Proof.
  unfold process_sensor.
  destruct (series_response w sensor) as [|[|it data]|] eqn:Hs.
  - intros [?|[?|?%elem_of_nil]%elem_of_cons]%elem_of_cons; done.
  - intros [?|[?|?%elem_of_nil]%elem_of_cons]%elem_of_cons; done.
  - destruct (collect sensor d (it :: data) [] []) as [out res] eqn:Hc.
    assert (Inserted n s ∉ out) as Hout.
    { intros Hin. destruct (collect_out _ _ _ _ _ _ _ _ Hc Hin)
        as [?%elem_of_nil|(? & ? & ?)]; done. }
    destruct res as [e|batch].
    + intros [?|[Hin|?%list_elem_of_singleton]%elem_of_app]%elem_of_cons; done.
    + apply collect_inr in Hc as [Hb _]. rewrite app_nil_l in Hb.
      unfold insert_batch.
      destruct batch as [|r batch];
        [|destruct (db_insert w sensor)]; cbn [snd];
        intros [?|[Hin|Hin%list_elem_of_singleton]%elem_of_app]%elem_of_cons;
        try done.
      simplify_eq. split; [done|]. exists (it :: data). by rewrite <- Hb.
  - intros [?|[?|?%elem_of_nil]%elem_of_cons]%elem_of_cons; done.
Qed.

End Normalization.

Section Persistence.

Context `{setting : Setting}.

#[local] Arguments process_sensor : simpl never.

Lemma held_prefix t t' r : t `prefix_of` t' -> held t r -> held t' r.
Proof.
  intros [k ->] [Hin|(r' & Hin & Hc)].
  - left. apply elem_of_app; by left.
  - right. exists r'. split; [apply elem_of_app; by left|done].
Qed.

Lemma insert_row_held t r : held (insert_row t r) r.
Proof.
  unfold insert_row. destruct (existsb (conflicts r) t) eqn:He.
  - right. apply existsb_exists in He as (r' & Hin & Hc).
    exists r'. split; [by apply list_elem_of_In|done].
  - left. apply elem_of_app; right. by apply list_elem_of_singleton.
Qed.

Lemma executemany_held t batch r : r ∈ batch -> held (executemany t batch) r.
Proof.
  revert t. induction batch as [|r0 batch IH]; simpl; intros t.
  - by intros ?%elem_of_nil.
  - intros [->|Hin]%elem_of_cons; [|by apply IH].
    eapply held_prefix; [apply executemany_prefix|apply insert_row_held].
Qed.

(** A sensor whose fetch, loop and database calls succeed has its batch
    committed, and nothing that follows takes it back. *)
Lemma process_sensors_held (w : world) c registry sensor d data out batch r :
  conn_ok c ->
  (sensor, d) ∈ registry ->
  series_response w sensor = Body data ->
  collect sensor d data [] [] = (out, inr batch) ->
  db_insert w sensor = DbOk ->
  r ∈ batch ->
  held (committed (process_sensors w c registry).1) r.
Proof.
  intros Hc (r1 & r2 & ->)%list_elem_of_split Hs Hcol Hdb Hr.
  rewrite process_sensors_app.
  pose proof (process_sensors_ok w c r1 Hc) as Hok1.
  destruct (process_sensors w c r1) as [c1 out1]. simpl in Hok1. simpl.
  pose proof (process_sensor_ok w c1 (sensor, d) Hok1) as Hok2.
  assert (held (committed (process_sensor w c1 (sensor, d)).1) r) as Hheld.
  { unfold process_sensor. rewrite Hs.
    destruct data as [|it data]; [by inversion Hcol; subst; apply elem_of_nil in Hr|].
    rewrite Hcol. unfold insert_batch.
    destruct batch as [|r0 batch]; [by apply elem_of_nil in Hr|].
    rewrite Hdb. cbn [fst committed conn_commit conn_execute working].
    by apply executemany_held. }
  destruct (process_sensor w c1 (sensor, d)) as [c2 out2]. simpl in *.
  pose proof (process_sensors_committed w c2 r2 Hok2) as Hpre.
  destruct (process_sensors w c2 r2) as [c3 out3]. simpl in *.
  by eapply held_prefix.
Qed.

Lemma final_table_run (w : world) t : final_table (run w t) = (ingest w t).1.1.
Proof.
  unfold run. destruct (ingest w t) as [[t' out] [|code]]; [|done].
  destruct (read_frame w t') as [df out_read].
  by destruct (make_graphs df) as [[graphs|] out_graphs].
Qed.

Lemma printed_run (w : world) t e :
  e ∈ (ingest w t).1.2 -> e ∈ printed (run w t).
Proof.
  unfold run. destruct (ingest w t) as [[t' out] [|code]]; [|done].
  destruct (read_frame w t') as [df out_read].
  destruct (make_graphs df) as [[graphs|] out_graphs]; simpl; intros ?;
    apply elem_of_app; by left.
Qed.

Lemma read_frame_out (w : world) t e :
  e ∈ (read_frame w t).2 -> of_presentation e = true.
Proof.
  unfold read_frame. destruct (db_read w); simpl; intros He;
    repeat (apply elem_of_cons in He as [->|He]; [done|]);
    by apply elem_of_nil in He.
Qed.

Lemma sensor_graphs_out df ids e :
  e ∈ (sensor_graphs df ids).2 -> of_presentation e = true.
Proof.
  induction ids as [|sensor ids IH]; simpl.
  - by intros ?%elem_of_nil.
  - destruct (sensor_graphs df ids) as [graphs out].
    destruct (rows_of df sensor) as [|first rest]; simpl in *.
    + intros [->|?]%elem_of_cons; auto.
    + destruct (sensor_figure (first :: rest) first sensor); simpl; [done|].
      by intros ?%elem_of_nil.
Qed.

Lemma make_graphs_out df e :
  e ∈ (make_graphs df).2 -> of_presentation e = true.
Proof.
  unfold make_graphs. destruct df as [|r df].
  - by intros ->%list_elem_of_singleton.
  - pose proof (sensor_graphs_out (clean (r :: df))
                  (unique (f_sensor_id <$> clean (r :: df))) e) as Hg.
    destruct (sensor_graphs _ _) as [graphs out]. simpl in *.
    intros [->|?]%elem_of_cons; auto.
Qed.

Lemma printed_run_inv (w : world) t e :
  e ∈ printed (run w t) -> of_presentation e = false -> e ∈ (ingest w t).1.2.
Proof.
  unfold run. destruct (ingest w t) as [[t' out] [|code]]; [|done].
  pose proof (read_frame_out w t' e) as Hr.
  destruct (read_frame w t') as [df out_read].
  pose proof (make_graphs_out df e) as Hg.
  destruct (make_graphs df) as [[graphs|] out_graphs]; simpl in *;
    intros [?|[?|?]%elem_of_app]%elem_of_app Hp; try done;
    [rewrite Hr in Hp by done|rewrite Hg in Hp by done
    |rewrite Hr in Hp by done|rewrite Hg in Hp by done]; done.
Qed.

(** C5 (as amended).  A point without [createdAt] or without [value] is
    passed over and nothing is printed for it; a point whose value is
    not null and makes [float()] raise ValueError or TypeError is passed
    over with the warning of line 82, which is printed when the loop
    over the series runs to its end.  No tuple is built from either:
    every row of the table after the run was there before it or is the
    tuple of a point that passed both tests, and the count printed at
    line 93 is the number of those points. *)
Theorem rejected_points (w : world) t m sensors :
  db_connect w = true ->
  metadata_response w = Body m ->
  metadata_sensors m = Some sensors ->
  (forall sensor d it,
     (createdAt it = None \/ value it = None ->
        normalize sensor d it = PointSkipped /\
        accepted sensor d it = None /\ warning sensor d it = None) /\
     (forall ts v,
        createdAt it = Some ts -> value it = Some v -> v <> JNull ->
        py_float v = inl ValueError \/ py_float v = inl TypeError ->
        normalize sensor d it = PointWarned (WarnConvert sensor v ts) /\
        accepted sensor d it = None /\
        forall data out batch,
          (sensor, d) ∈ sensor_details sensors ->
          series_response w sensor = Body data ->
          it ∈ data ->
          collect sensor d data [] [] = (out, inr batch) ->
          WarnConvert sensor v ts ∈ printed (run w t))) /\
  (forall r, r ∈ final_table (run w t) ->
     r ∈ t \/
     exists sensor d data it,
       (sensor, d) ∈ sensor_details sensors /\
       series_response w sensor = Body data /\ it ∈ data /\
       accepted sensor d it = Some r) /\
  (forall n sensor, Inserted n sensor ∈ printed (run w t) ->
     exists d data,
       (sensor, d) ∈ sensor_details sensors /\
       series_response w sensor = Body data /\
       n = length (omap (accepted sensor d) data)).
Proof.
  intros Hc Hm Hs.
  pose proof (ingest_completed w t m sensors Hc Hm Hs) as Hi.
  split; [|split].
  - intros sensor d it. split.
    + intros Hl. unfold accepted, warning.
      by rewrite (normalize_lacking sensor d it Hl).
    + intros ts v Hts Hv Hnull He.
      pose proof (normalize_unparsable sensor d it ts v Hts Hv Hnull He) as Hn.
      split; [done|]. split; [unfold accepted; by rewrite Hn|].
      intros data out batch Hin Hdata Hit Hcol.
      apply printed_run. rewrite Hi. cbn [fst snd].
      apply elem_of_app; right. apply elem_of_app; left.
      apply (process_sensors_out w (conn_open t) _ (sensor, d)); [done|].
      unfold process_sensor. rewrite Hdata.
      destruct data as [|it0 data]; [by apply elem_of_nil in Hit|].
      rewrite Hcol. apply collect_inr in Hcol as [_ ->].
      destruct (insert_batch w sensor (conn_open t) batch) as [c' out'].
      cbn [snd]. apply elem_of_cons; right. apply elem_of_app; left.
      rewrite app_nil_l. apply list_elem_of_omap. exists it.
      split; [done|]. unfold warning. by rewrite Hn.
  - intros r Hr. rewrite final_table_run, Hi in Hr. cbn [fst] in Hr.
    pose proof (process_sensors_ok w (conn_open t) (sensor_details sensors)
                  (conn_open_ok t)) as [k Hk].
    assert (r ∈ working (process_sensors w (conn_open t)
                           (sensor_details sensors)).1) as Hw.
    { rewrite Hk. apply elem_of_app; by left. }
    apply process_sensors_rows in Hw
      as [?|(sensor & d & data & it & ? & ? & ? & Hn)];
      [by left| |apply conn_open_ok].
    right. exists sensor, d, data, it. repeat split; try done.
    unfold accepted. by rewrite Hn.
  - intros n sensor Hin.
    apply printed_run_inv in Hin; [|done]. rewrite Hi in Hin. cbn [fst snd] in Hin.
    apply elem_of_app in Hin as [Hin|Hin].
    { apply elem_of_cons in Hin as [?|Hin]; [done|].
      apply elem_of_cons in Hin as [?|Hin]; [done|]. by apply elem_of_nil in Hin. }
    apply elem_of_app in Hin as [Hin|Hin].
    + apply process_sensors_out_inv in Hin as ([s d] & Hsd & Hin).
      apply process_sensor_inserted in Hin as (-> & data & ? & ?).
      by exists d, data.
    + apply elem_of_cons in Hin as [?|Hin]; [done|].
      apply elem_of_cons in Hin as [?|Hin]; [done|]. by apply elem_of_nil in Hin.
Qed.

(** C6.  A point with a timestamp whose value is a literal null is not
    refused: its tuple, with a null measurement, is appended; when the
    loop over the series runs to its end the tuple is in the batch, and
    when the insert and the commit of the sensor succeed the table holds
    it (or the row that was there first under its key). *)
Theorem null_value_preserved (w : world) t m sensors sensor d data it ts :
  db_connect w = true ->
  metadata_response w = Body m ->
  metadata_sensors m = Some sensors ->
  (sensor, d) ∈ sensor_details sensors ->
  series_response w sensor = Body data ->
  it ∈ data ->
  createdAt it = Some ts ->
  value it = Some JNull ->
  normalize sensor d it = PointAppended (point_row sensor d ts None) /\
  r_measurement (point_row sensor d ts None) = None /\
  warning sensor d it = None /\
  forall out batch,
    collect sensor d data [] [] = (out, inr batch) ->
    point_row sensor d ts None ∈ batch /\
    (db_insert w sensor = DbOk ->
     held (final_table (run w t)) (point_row sensor d ts None)).
Proof.
  intros Hc Hm Hs Hin Hdata Hit Hts Hv.
  pose proof (normalize_null sensor d it ts Hts Hv) as Hn.
  split; [done|]. split; [done|]. split; [unfold warning; by rewrite Hn|].
  intros out batch Hcol.
  assert (point_row sensor d ts None ∈ batch) as Hb.
  { pose proof Hcol as [-> _]%collect_inr. rewrite app_nil_l.
    apply list_elem_of_omap. exists it. split; [done|].
    unfold accepted. by rewrite Hn. }
  split; [done|]. intros Hdb.
  rewrite final_table_run, (ingest_completed w t m sensors Hc Hm Hs).
  cbn [fst].
  by eapply (process_sensors_held w (conn_open t)); [apply conn_open_ok|..].
Qed.

End Persistence.

Section Idempotence.

Context `{setting : Setting}.

#[local] Arguments process_sensor : simpl never.

(** The store's comparison of instants relates every text to itself. *)
Hypothesis same_instant_refl : forall a, same_instant a a = true.

Lemma conflicts_refl r : conflicts r r = true.
Proof.
  unfold conflicts. by rewrite same_instant_refl, !String.eqb_refl.
Qed.

Lemma covered_prefix t t' r : t `prefix_of` t' -> covered t r -> covered t' r.
Proof.
  unfold covered. intros [k ->] Hc. rewrite existsb_app, Hc. done.
Qed.

(** On conflict the insert does nothing. *)
Lemma insert_row_covered t r : covered t r -> insert_row t r = t.
Proof. unfold covered, insert_row. by intros ->. Qed.

Lemma executemany_covered t batch :
  Forall (covered t) batch -> executemany t batch = t.
Proof.
  induction 1 as [|r batch Hr _ IH]; simpl; [done|].
  by rewrite insert_row_covered.
Qed.

Lemma insert_row_covers t r : covered (insert_row t r) r.
Proof.
  unfold covered, insert_row. destruct (existsb (conflicts r) t) eqn:He; [done|].
  rewrite existsb_app. simpl. by rewrite conflicts_refl, orb_true_r.
Qed.

Lemma executemany_covers t batch :
  Forall (covered (executemany t batch)) batch.
Proof.
  revert t. induction batch as [|r batch IH]; intros t; simpl; [done|].
  constructor; [|apply IH].
  eapply covered_prefix; [apply executemany_prefix|apply insert_row_covers].
Qed.

Lemma batch_of_ext (w w' : world) sd :
  (forall s, series_response w' s = series_response w s) ->
  batch_of w' sd = batch_of w sd.
Proof. intros Hs. unfold batch_of. by rewrite Hs. Qed.

(** When the driver never fails, a sensor's step commits its batch on
    top of the table. *)
Lemma process_sensor_calm (w : world) t sd :
  db_insert w sd.1 = DbOk ->
  (process_sensor w (Conn t t) sd).1 =
    Conn (executemany t (batch_of w sd)) (executemany t (batch_of w sd)).
Proof.
  destruct sd as [sensor d]. unfold process_sensor, batch_of. simpl. intros Hdb.
  destruct (series_response w sensor) as [|[|it data]|]; try done.
  destruct (collect sensor d (it :: data) [] []) as [out [e|batch]]; [done|].
  unfold insert_batch. destruct batch as [|r batch]; [done|]. by rewrite Hdb.
Qed.

Lemma process_sensors_calm (w : world) t registry :
  (forall s, db_insert w s = DbOk) ->
  exists t',
    (process_sensors w (Conn t t) registry).1 = Conn t' t' /\
    t `prefix_of` t' /\
    forall sd, sd ∈ registry -> Forall (covered t') (batch_of w sd).
Proof.
  intros Hdb. revert t. induction registry as [|sd registry IH]; intros t.
  - exists t. split; [done|]. split; [done|]. by intros sd ?%elem_of_nil.
  - simpl. pose proof (process_sensor_calm w t sd (Hdb _)) as H1.
    destruct (process_sensor w (Conn t t) sd) as [c1 out1]. simpl in H1.
    subst c1. destruct (IH (executemany t (batch_of w sd)))
      as (t' & Ht' & Hpre & Hcov).
    destruct (process_sensors w _ registry) as [c2 out2]. simpl in Ht'.
    exists t'. split; [done|]. split.
    + etrans; [apply executemany_prefix|done].
    + intros sd' [->|Hin]%elem_of_cons; [|by apply Hcov].
      eapply Forall_impl; [apply executemany_covers|].
      intros r. by apply covered_prefix.
Qed.

(** On a table that covers a sensor's batch, the sensor's step changes
    nothing, whatever the driver does. *)
Lemma process_sensor_fixed (w : world) t sd :
  Forall (covered t) (batch_of w sd) ->
  (process_sensor w (Conn t t) sd).1 = Conn t t.
Proof.
  destruct sd as [sensor d]. unfold process_sensor, batch_of. simpl.
  destruct (series_response w sensor) as [|[|it data]|]; try done.
  destruct (collect sensor d (it :: data) [] []) as [out [e|batch]]; [done|].
  intros Hcov. unfold insert_batch. destruct batch as [|r batch]; [done|].
  destruct (db_insert w sensor);
    unfold conn_commit, conn_rollback, conn_execute; cbn [fst committed working].
  - by rewrite (executemany_covered t (r :: batch) Hcov).
  - rewrite (executemany_covered t (take k (r :: batch))); [done|].
    by apply Forall_take.
  - done.
Qed.

Lemma process_sensors_fixed (w : world) t registry :
  (forall sd, sd ∈ registry -> Forall (covered t) (batch_of w sd)) ->
  (process_sensors w (Conn t t) registry).1 = Conn t t.
Proof.
  induction registry as [|sd registry IH]; intros Hcov; [done|].
  simpl. pose proof (process_sensor_fixed w t sd) as H1.
  destruct (process_sensor w (Conn t t) sd) as [c1 out1]. simpl in H1.
  rewrite H1 by (apply Hcov; by apply elem_of_cons; left).
  destruct (process_sensors w (Conn t t) registry) as [c2 out2] eqn:H2.
  simpl in *. apply IH. intros sd' Hin. apply Hcov. by apply elem_of_cons; right.
Qed.

(** C3.  Let a first run, in which the insert connection opens and no
    insert or commit fails, be followed by a second run that receives
    the same metadata and the same series.  The first run only appends
    to the table, and the second leaves the table, and so its row
    count, as the first left it: a tuple whose key
    [(timestamp, box_id, sensor_id)] is in the table is not inserted and
    the row with that key is not touched. *)
Theorem ingestion_idempotent (w1 w2 : world) t :
  db_connect w1 = true ->
  (forall s, db_insert w1 s = DbOk) ->
  metadata_response w2 = metadata_response w1 ->
  (forall s, series_response w2 s = series_response w1 s) ->
  t `prefix_of` final_table (run w1 t) /\
  final_table (run w2 (final_table (run w1 t))) = final_table (run w1 t) /\
  length (final_table (run w2 (final_table (run w1 t)))) =
    length (final_table (run w1 t)) /\
  (forall t0 r, covered t0 r -> insert_row t0 r = t0).
Proof.
  intros Hc Hdb Hm Hs.
  assert (t `prefix_of` final_table (run w1 t) /\
          final_table (run w2 (final_table (run w1 t))) = final_table (run w1 t))
    as [Hpre Heq].
  { rewrite !final_table_run, (ingest_table w1 t).
    assert (ingest_registry w2 = ingest_registry w1 \/ ingest_registry w2 = None)
      as Hreg.
    { unfold ingest_registry. rewrite Hm, Hc. destruct (db_connect w2); auto. }
    destruct (ingest_registry w1) as [registry|] eqn:Hr1.
    - destruct (process_sensors_calm w1 t registry Hdb)
        as (t' & Ht' & Hpre & Hcov).
      change (conn_open t) with (Conn t t). rewrite Ht'. cbn [committed].
      split; [done|]. rewrite ingest_table.
      destruct Hreg as [-> | ->]; [|done].
      change (conn_open t') with (Conn t' t').
      rewrite process_sensors_fixed; [done|].
      intros sd Hsd. rewrite (batch_of_ext w1 w2 sd Hs). by apply Hcov.
    - split; [done|]. rewrite ingest_table. by destruct Hreg as [-> | ->]. }
  split; [done|]. split; [done|]. split; [by rewrite Heq|].
  apply insert_row_covered.
Qed.

End Idempotence.

Section Presentation.

Context `{setting : Setting}.

(** The store's orders are total preorders. *)
Hypothesis text_leb_total : forall a b, text_leb a b = true \/ text_leb b a = true.
Hypothesis text_leb_trans :
  forall a b c, text_leb a b = true -> text_leb b c = true -> text_leb a c = true.
Hypothesis ts_leb_total : forall a b, ts_leb a b = true \/ ts_leb b a = true.
Hypothesis ts_leb_trans :
  forall a b c, ts_leb a b = true -> ts_leb b c = true -> ts_leb a c = true.

Lemma then_by_total first next :
  total_leb first -> total_leb next -> total_leb (then_by first next).
Proof.
  intros Hf Hn a b. unfold then_by.
  destruct (Hf a b) as [Hab|Hba].
  - rewrite Hab. simpl. destruct (first b a); simpl; [apply Hn|by left].
  - rewrite Hba. simpl. destruct (first a b); simpl; [apply Hn|by right].
Qed.

Lemma then_by_trans first next :
  trans_leb first -> trans_leb next -> trans_leb (then_by first next).
Proof.
  intros Hf Hn a b c. unfold then_by.
  destruct (first a b) eqn:Hab; simpl; [|done].
  destruct (first b c) eqn:Hbc; simpl; [|by destruct (first b a)].
  rewrite (Hf a b c Hab Hbc). simpl.
  destruct (first c a) eqn:Hca; simpl; [|done].
  rewrite (Hf b c a Hbc Hca), (Hf c a b Hca Hab). simpl. apply Hn.
Qed.

Lemma order_leb_total : total_leb order_leb.
Proof.
  repeat apply then_by_total; intros a b.
  - apply text_leb_total.
  - apply text_leb_total.
  - apply ts_leb_total.
Qed.

Lemma order_leb_trans : trans_leb order_leb.
Proof.
  repeat apply then_by_trans; intros a b c.
  - apply text_leb_trans.
  - apply text_leb_trans.
  - apply ts_leb_trans.
Qed.

#[local] Instance order_le_total : Total order_le.
Proof.
  intros a b. unfold order_le.
  destruct (order_leb_total a b) as [-> | ->]; [by left|by right].
Qed.

#[local] Instance order_le_trans : Transitive order_le.
Proof.
  intros a b c Hab%Is_true_true Hbc%Is_true_true.
  apply Is_true_true. by eapply order_leb_trans.
Qed.

Lemma elem_of_filter_bool {A : Type} (f : A -> bool) (l : list A) x :
  x ∈ List.filter f l <-> x ∈ l /\ f x = true.
Proof. rewrite !list_elem_of_In. apply filter_In. Qed.

(** C9.  The rows that the dashboard's query returns are the five
    selected columns of the rows of the table whose [box_id] is the
    configured device, each of them once, and they come sorted by sensor
    type, rows of one type by sensor id, and rows of one type and id by
    timestamp; a successful read hands exactly these rows to the
    dashboard. *)
Theorem dashboard_query_sorted (t : table) :
  exists rows,
    dashboard_query t = select <$> rows /\
    rows ≡ₚ where_box t /\
    (forall r, r ∈ rows <-> r ∈ t /\ r_box_id r = SENSEBOX_ID) /\
    StronglySorted order_le rows /\
    (forall w, db_read w = ReadOk -> (read_frame w t).1 = dashboard_query t).
Proof.
  exists (merge_sort order_le (where_box t)).
  split; [done|]. split; [apply merge_sort_Permutation|]. split; [|split].
  - intros r. rewrite (merge_sort_Permutation order_le (where_box t)).
    unfold where_box. rewrite elem_of_filter_bool.
    by rewrite String.eqb_eq.
  - apply StronglySorted_merge_sort; apply _.
  - intros w Hr. unfold read_frame. by rewrite Hr.
Qed.

End Presentation.

Section Panels.

Context `{setting : Setting}.

Lemma string_app_assoc (a b c : string) : (a +:+ b) +:+ c = a +:+ b +:+ c.
Proof.
  induction a as [|x a IH]; [done|].
  change (String x ((a +:+ b) +:+ c) = String x (a +:+ b +:+ c)).
  by rewrite IH.
Qed.

Lemma elem_of_unique (l : list string) s : s ∈ unique l <-> s ∈ l.
Proof.
  induction l as [|x l IH]; simpl; [done|].
  rewrite !elem_of_cons, elem_of_filter_bool, IH, negb_true_iff, String.eqb_neq.
  destruct (decide (s = x)); tauto.
Qed.

Lemma NoDup_unique (l : list string) : NoDup (unique l).
Proof.
  induction l as [|x l IH]; simpl; [constructor|].
  apply NoDup_cons. split;
    [|by apply NoDup_ListNoDup, List.NoDup_filter, NoDup_ListNoDup].
  rewrite elem_of_filter_bool, negb_true_iff, String.eqb_neq. by intros [_ ?].
Qed.

Lemma sensor_figure_none df_sensor first s :
  sensor_figure df_sensor first s = None <-> unlabelled first.
Proof.
  unfold sensor_figure, px_line, unlabelled.
  destruct (py_truthy (f_unit first)); [by split; [|intros [_ ?]]|].
  destruct (f_sensor_type first); by split; [|intros [? _]].
Qed.

Lemma title_includes_id (x s : string) :
  includes s ("Type: " +:+ x +:+ " (ID: " +:+ s +:+ ")").
Proof.
  exists ("Type: " +:+ x +:+ " (ID: "), ")". by rewrite !string_app_assoc.
Qed.

Lemma title_includes_type (x s : string) :
  includes x ("Type: " +:+ x +:+ " (ID: " +:+ s +:+ ")").
Proof. by exists "Type: ", (" (ID: " +:+ s +:+ ")"). Qed.

Lemma label_includes_unit (x u : string) : includes u (x +:+ " (" +:+ u +:+ ")").
Proof. exists (x +:+ " ("), ")". by rewrite !string_app_assoc. Qed.

Lemma sensor_figure_panel df s first rest fig :
  rows_of df s = first :: rest ->
  sensor_figure (first :: rest) first s = Some fig ->
  panel_of df s fig.
Proof.
  intros Hrows Hfig. exists first, rest.
  assert (first ∈ df /\ f_sensor_id first = s) as [Hin Hid].
  { assert (first ∈ rows_of df s) as Hf by (rewrite Hrows; by apply elem_of_cons; left).
    unfold rows_of in Hf. apply elem_of_filter_bool in Hf as [? ?%String.eqb_eq].
    done. }
  split; [done|]. split; [done|]. split; [done|].
  unfold sensor_figure, px_line in Hfig.
  destruct (f_sensor_type first) as [ty|] eqn:Hty;
    destruct (f_unit first) as [u|] eqn:Hu; cbn [py_truthy py_format default] in Hfig.
  all: try destruct (String.eqb u "") eqn:Hempty; cbn [negb] in Hfig.
  all: try done.
  all: injection Hfig as <-; cbn [fig_data fig_title fig_xlabel fig_ylabel].
  all: split; [done|]; split; [done|].
  all: split; [apply title_includes_id|].
  - apply String.eqb_eq in Hempty as ->.
    split; [intros ? [= <-]; split; [done|apply title_includes_type]|].
    split; [by intros ? [= <-]|]. split; [by intros ? ? _ [= <-]|].
    by intros ? [= <-] _.
  - apply String.eqb_neq in Hempty.
    split; [intros ? [= <-]; split; [done|apply title_includes_type]|].
    split; [intros ? [= <-] _; eexists; split; [done|apply label_includes_unit]|].
    split; [by intros ? ? [= <-] [= <-] _|].
    by intros ? _ [= ->].
  - split; [intros ? [= <-]; split; [done|apply title_includes_type]|].
    split; [by intros ? [=]|]. split; [by intros ? ? _ [=]|]. by intros ? _ [=].
  - apply String.eqb_neq in Hempty.
    split; [by intros ? [=]|].
    split; [intros ? [= <-] _; eexists; split; [done|apply label_includes_unit]|].
    split; [by intros ? ? [=]|]. by intros ? [=].
Qed.

Lemma sensor_graphs_panels df ids graphs :
  (forall s, s ∈ ids -> exists r, r ∈ df /\ f_sensor_id r = s) ->
  (sensor_graphs df ids).1 = Some graphs ->
  Forall2 (panel_of df) ids graphs.
Proof.
  revert graphs. induction ids as [|s ids IH]; intros graphs Hids; simpl.
  - intros [= <-]. constructor.
  - destruct (rows_of df s) as [|first rest] eqn:Hrows.
    { exfalso. destruct (Hids s) as (r & Hr & Hid); [by apply elem_of_cons; left|].
      assert (r ∈ rows_of df s) as Hin.
      { unfold rows_of. apply elem_of_filter_bool. by rewrite String.eqb_eq. }
      rewrite Hrows in Hin. by apply elem_of_nil in Hin. }
    destruct (sensor_figure (first :: rest) first s) as [fig|] eqn:Hfig; [|done].
    destruct (sensor_graphs df ids) as [[graphs'|] out]; [|done].
    simpl. intros [= <-]. constructor.
    + by eapply sensor_figure_panel.
    + apply IH; [|done]. intros s' ?. apply Hids. by apply elem_of_cons; right.
Qed.

Lemma clean_ids df_all s :
  s ∈ unique (f_sensor_id <$> clean df_all) ->
  exists r, r ∈ clean df_all /\ f_sensor_id r = s.
Proof.
  intros Hs. apply (proj1 (elem_of_unique _ _)) in Hs.
  apply list_elem_of_fmap in Hs as (r' & -> & ?). by exists r'.
Qed.

Lemma make_graphs_panels df_all graphs :
  (make_graphs df_all).1 = Some graphs ->
  Forall2 (panel_of (clean df_all)) (unique (f_sensor_id <$> clean df_all)) graphs.
Proof.
  unfold make_graphs. destruct df_all as [|r df_all].
  { intros [= <-]. constructor. }
  pose proof (sensor_graphs_panels (clean (r :: df_all))
                (unique (f_sensor_id <$> clean (r :: df_all))) graphs) as Hp.
  destruct (sensor_graphs _ _) as [graphs' out]. cbn [fst] in *.
  intros ->. apply Hp; [|done]. apply clean_ids.
Qed.

(** The loop of line 167 is left by the TypeError of line 176 exactly
    when one of the sensors it goes through has no label. *)
Lemma sensor_graphs_none df ids :
  (sensor_graphs df ids).1 = None <->
  exists s first rest, s ∈ ids /\ rows_of df s = first :: rest /\ unlabelled first.
Proof.
  induction ids as [|s ids IH]; simpl.
  - split; [done|]. by intros (s & ? & ? & ?%elem_of_nil & _).
  - destruct (rows_of df s) as [|first rest] eqn:Hrows.
    + destruct (sensor_graphs df ids) as [graphs out]. simpl in *. rewrite IH.
      split.
      * intros (s' & f & r & ? & ?). exists s', f, r.
        split; [by apply elem_of_cons; right|done].
      * intros (s' & f & r & [->|?]%elem_of_cons & Hr & ?); [congruence|].
        by exists s', f, r.
    + destruct (sensor_figure (first :: rest) first s) as [fig|] eqn:Hfig.
      * destruct (sensor_graphs df ids) as [[graphs|] out]; simpl in *.
        -- split; [done|].
           intros (s' & f & r & [->|?]%elem_of_cons & Hr & Hu).
           ++ rewrite Hrows in Hr. injection Hr as <- <-.
              apply (sensor_figure_none (first :: rest) first s) in Hu. congruence.
           ++ assert (Some graphs = None) as [=]. apply IH. by exists s', f, r.
        -- split; [|done]. intros _.
           destruct (proj1 IH eq_refl) as (s' & f & r & ? & ?).
           exists s', f, r. split; [by apply elem_of_cons; right|done].
      * simpl. split; [|done]. intros _. exists s, first, rest.
        split; [by apply elem_of_cons; left|]. split; [done|].
        by apply (sensor_figure_none (first :: rest) first s).
Qed.

Lemma make_graphs_none df_all :
  (make_graphs df_all).1 = None <-> label_missing df_all.
Proof.
  unfold make_graphs, label_missing. destruct df_all as [|r df_all].
  { split; [done|]. by intros (s & ? & ? & ? & _). }
  pose proof (sensor_graphs_none (clean (r :: df_all))
                (unique (f_sensor_id <$> clean (r :: df_all)))) as Hn.
  destruct (sensor_graphs _ _) as [graphs out]. cbn [fst] in *.
  rewrite Hn. split.
  - intros (s & f & rest & _ & ?). by exists s, f, rest.
  - intros (s & f & rest & Hrows & ?). exists s, f, rest. split; [|done].
    apply elem_of_unique, list_elem_of_fmap. exists f. 
    assert (f ∈ rows_of (clean (r :: df_all)) s) as Hf
      by (rewrite Hrows; by apply elem_of_cons; left).
    unfold rows_of in Hf. apply elem_of_filter_bool in Hf as [? ?%String.eqb_eq].
    done.
Qed.

(** A run that serves a layout made its graphs without an exception. *)
Lemma run_serving_inv (w : world) t t' out children :
  run w t = Serving t' out children ->
  exists out1 graphs,
    ingest w t = (t', out1, Completed) /\
    (make_graphs (read_frame w t').1).1 = Some graphs /\
    out = out1 ++ (read_frame w t').2 ++ (make_graphs (read_frame w t').1).2 /\
    children = app_layout graphs.
Proof.
  unfold run. destruct (ingest w t) as [[t1 out1] [|code]]; [|done].
  destruct (read_frame w t1) as [df out_read] eqn:Hread.
  destruct (make_graphs df) as [[graphs|] out_graphs] eqn:Hg; [|done].
  intros [= <- <- <-]. exists out1, graphs. rewrite Hread. cbn [fst snd].
  by rewrite Hg.
Qed.

End Panels.

(** * Further properties of the script *)

Section RegistryKeys.

Context `{setting : Setting}.

Lemma dict_set_here {V : Type} k (v : V) d : (k, v) ∈ dict_set k v d.
Proof.
  induction d as [|[k' v'] d IH]; simpl.
  - apply list_elem_of_here.
  - destruct (String.eqb k k'); [apply list_elem_of_here|].
    by apply list_elem_of_further.
Qed.

Lemma dict_set_other {V : Type} k (v : V) d i x :
  i <> k -> (i, x) ∈ d -> (i, x) ∈ dict_set k v d.
Proof.
  intros Hne. induction d as [|[k' v'] d IH]; simpl.
  - by intros ?%elem_of_nil.
  - destruct (String.eqb k k') eqn:Hk.
    + apply String.eqb_eq in Hk as <-.
      intros [[= ? ?]|Hin]%elem_of_cons; [done|].
      by apply list_elem_of_further.
    + intros [->|Hin]%elem_of_cons; [apply list_elem_of_here|].
      apply list_elem_of_further. by apply IH.
Qed.

Lemma dict_set_keys {V : Type} k (v : V) d i :
  i ∈ (dict_set k v d).*1 <-> i = k \/ i ∈ d.*1.
Proof.
  induction d as [|[k' v'] d IH]; simpl.
  - rewrite list_elem_of_singleton, elem_of_nil. tauto.
  - destruct (String.eqb k k') eqn:Hk; simpl.
    + apply String.eqb_eq in Hk as <-. rewrite !elem_of_cons. tauto.
    + rewrite !elem_of_cons, IH. tauto.
Qed.

Lemma dict_set_NoDup {V : Type} k (v : V) d :
  NoDup d.*1 -> NoDup (dict_set k v d).*1.
Proof.
  induction d as [|[k' v'] d IH]; simpl.
  - intros _. apply NoDup_singleton.
  - destruct (String.eqb k k') eqn:Hk; simpl.
    + by apply String.eqb_eq in Hk as <-.
    + apply String.eqb_neq in Hk.
      rewrite !NoDup_cons, dict_set_keys. intros [Hk' Hd].
      split; [|by apply IH]. intros [?|?]; [by subst|done].
Qed.

Lemma keys_functional {V : Type} (d : list (string * V)) i x y :
  NoDup d.*1 -> (i, x) ∈ d -> (i, y) ∈ d -> x = y.
Proof.
  induction d as [|[k v] d IH]; simpl.
  - by intros _ ?%elem_of_nil.
  - rewrite NoDup_cons. intros [Hk Hd] [Hx|Hx]%elem_of_cons [Hy|Hy]%elem_of_cons.
    + by simplify_eq.
    + simplify_eq. exfalso. apply Hk.
      apply list_elem_of_fmap. by exists (k, y).
    + simplify_eq. exfalso. apply Hk.
      apply list_elem_of_fmap. by exists (k, x).
    + by apply IH.
Qed.

Lemma registry_fold_NoDup sensors acc :
  NoDup acc.*1 -> NoDup (fold_left registry_step sensors acc).*1.
Proof.
  revert acc. induction sensors as [|s sensors IH]; simpl; intros acc Hacc.
  - done.
  - apply IH. unfold registry_step. destruct (s_id s); [|done].
    by apply dict_set_NoDup.
Qed.

Lemma registry_fold_keys sensors acc i :
  i ∈ (fold_left registry_step sensors acc).*1 <->
  i ∈ acc.*1 \/ exists s, s ∈ sensors /\ s_id s = Some i.
Proof.
  revert acc. induction sensors as [|s sensors IH]; simpl; intros acc.
  - split; [by left|]. intros [?|(s & ?%elem_of_nil & _)]; done.
  - rewrite IH. unfold registry_step. split.
    + intros [Hacc|(s' & Hs' & Hid)].
      * destruct (s_id s) as [k|] eqn:Hk; [|by left].
        apply dict_set_keys in Hacc as [->|?]; [|by left].
        right. exists s. split; [apply list_elem_of_here|done].
      * right. exists s'. split; [by apply list_elem_of_further|done].
    + intros [Hacc|(s' & [->|Hs']%elem_of_cons & Hid)].
      * left. destruct (s_id s); [|done]. apply dict_set_keys. by right.
      * left. rewrite Hid. apply dict_set_keys. by left.
      * right. by exists s'.
Qed.

Lemma registry_fold_keeps sensors acc i x :
  (forall s, s ∈ sensors -> s_id s <> Some i) ->
  (i, x) ∈ acc -> (i, x) ∈ fold_left registry_step sensors acc.
Proof.
  revert acc. induction sensors as [|s sensors IH]; simpl; intros acc Hno Hin.
  - done.
  - apply IH.
    + intros s' Hs'. apply Hno. by apply list_elem_of_further.
    + unfold registry_step. destruct (s_id s) as [k|] eqn:Hk; [|done].
      apply dict_set_other; [|done]. intros ->.
      by apply (Hno s); [apply list_elem_of_here|].
Qed.

(** X1.  The registry of lines 41 to 48 is a dict: a sensor id occurs in
    it once, however often the metadata lists it; its keys are the
    [_id]s of the entries that have one; and the value kept for an id is
    the one built from the last entry that carries it. *)
Theorem registry_keys (sensors : list sensor_entry) :
  NoDup (sensor_details sensors).*1 /\
  (forall i, i ∈ (sensor_details sensors).*1 <->
             exists s, s ∈ sensors /\ s_id s = Some i) /\
  (forall l1 s l2 i d,
     sensors = l1 ++ s :: l2 ->
     s_id s = Some i ->
     (forall s', s' ∈ l2 -> s_id s' <> Some i) ->
     ((i, d) ∈ sensor_details sensors <-> d = entry_details s)).
Proof.
  assert (NoDup (sensor_details sensors).*1) as Hnodup.
  { rewrite sensor_details_fold. apply registry_fold_NoDup. constructor. }
  split; [done|]. split.
  - intros i. rewrite sensor_details_fold, registry_fold_keys. simpl.
    rewrite elem_of_nil. tauto.
  - intros l1 s l2 i d -> Hid Hlast.
    assert ((i, entry_details s) ∈ sensor_details (l1 ++ s :: l2)) as Hin.
    { rewrite sensor_details_fold, fold_left_app. simpl.
      apply registry_fold_keeps; [done|].
      unfold registry_step at 1. rewrite Hid. apply dict_set_here. }
    split; [|by intros ->].
    intros Hd. by apply (keys_functional _ i d (entry_details s) Hnodup).
Qed.

End RegistryKeys.

Section StoreInvariants.

Context `{setting : Setting}.

#[local] Arguments process_sensor : simpl never.

Lemma executemany_added t batch :
  exists k, executemany t batch = t ++ k /\ forall r, r ∈ k -> r ∈ batch.
Proof.
  revert t. induction batch as [|r0 batch IH]; intros t; simpl.
  - exists []. split; [by rewrite app_nil_r|]. by intros r ?%elem_of_nil.
  - destruct (IH (insert_row t r0)) as (k & -> & Hk).
    unfold insert_row. destruct (existsb (conflicts r0) t).
    + exists k. split; [done|]. intros r ?. apply list_elem_of_further. auto.
    + exists (r0 :: k). split; [by rewrite <- app_assoc|].
      intros r [->|?]%elem_of_cons; [apply list_elem_of_here|].
      apply list_elem_of_further. auto.
Qed.

Lemma process_sensor_added (P : row -> Prop) (w : world) c sensor d :
  (forall r, r ∈ batch_of w (sensor, d) -> P r) ->
  pending_all P c ->
  (exists k, committed (process_sensor w c (sensor, d)).1 = committed c ++ k /\
             Forall P k) /\
  pending_all P (process_sensor w c (sensor, d)).1.
Proof.
  intros HP (p & Hw & Hp).
  assert ((exists k, committed c = committed c ++ k /\ Forall P k) /\
          pending_all P c) as Hsame.
  { split; [exists []; by rewrite app_nil_r|by exists p]. }
  revert HP. unfold process_sensor, batch_of. cbn [fst snd].
  destruct (series_response w sensor) as [|[|it data]|]; try done.
  destruct (collect sensor d (it :: data) [] []) as [out [e|batch]] eqn:Hc;
    [done|].
  intros Hbatch.
  unfold insert_batch. destruct batch as [|r0 batch]; [done|].
  unfold pending_all. destruct (db_insert w sensor);
    cbn [fst committed working conn_commit conn_execute conn_rollback].
  - destruct (executemany_added (working c) (r0 :: batch)) as (k & -> & Hk).
    rewrite Hw, <- app_assoc. split.
    + exists (p ++ k). split; [done|]. apply Forall_app. split; [done|].
      apply Forall_forall. auto.
    + exists []. by rewrite app_nil_r.
  - destruct (executemany_added (working c) (take k (r0 :: batch)))
      as (k' & -> & Hk').
    rewrite Hw, <- app_assoc. split.
    + exists []. by rewrite app_nil_r.
    + exists (p ++ k'). split; [done|]. apply Forall_app. split; [done|].
      apply Forall_forall. intros r Hr. apply Hbatch.
      apply Hk' in Hr. apply elem_of_take in Hr as (i & Hi & _).
      by eapply list_elem_of_lookup_2.
  - split; exists []; by rewrite app_nil_r.
Qed.

Lemma process_sensors_added (P : row -> Prop) (w : world) c registry :
  (forall sd r, sd ∈ registry -> r ∈ batch_of w sd -> P r) ->
  pending_all P c ->
  exists k, committed (process_sensors w c registry).1 = committed c ++ k /\
            Forall P k.
Proof.
  revert c. induction registry as [|[sensor d] registry IH]; intros c HP Hc.
  - exists []. by rewrite app_nil_r.
  - simpl.
    destruct (process_sensor_added P w c sensor d) as [(k1 & Hk1 & HP1) Hc1];
      [intros r; apply HP, list_elem_of_here|done|].
    destruct (process_sensor w c (sensor, d)) as [c1 out1]. simpl in *.
    destruct (IH c1) as (k2 & Hk2 & HP2);
      [intros sd' r ?; apply HP; by apply list_elem_of_further|done|].
    destruct (process_sensors w c1 registry) as [c2 out2]. simpl in *.
    exists (k1 ++ k2). rewrite Hk2, Hk1, <- app_assoc. split; [done|].
    by apply Forall_app.
Qed.

Lemma batch_of_elem (w : world) sensor d r :
  r ∈ batch_of w (sensor, d) ->
  exists it, accepted sensor d it = Some r /\ normalize sensor d it = PointAppended r.
Proof.
  unfold batch_of. cbn [fst snd].
  destruct (series_response w sensor) as [|data|];
    [by intros ?%elem_of_nil| |by intros ?%elem_of_nil].
  destruct (collect sensor d data [] []) as [out [e|batch]] eqn:Hc;
    [by intros ?%elem_of_nil|].
  apply collect_inr in Hc as [-> _]. rewrite app_nil_l.
  intros (it & _ & Hacc)%list_elem_of_omap. exists it. split; [done|].
  unfold accepted in Hacc. destruct (normalize sensor d it); by simplify_eq.
Qed.

Lemma normalize_appended sensor d it r :
  normalize sensor d it = PointAppended r ->
  exists ts m, createdAt it = Some ts /\ r = point_row sensor d ts m.
Proof.
  unfold normalize. destruct (createdAt it) as [ts|]; [|done].
  destruct (value it) as [v|]; [|done].
  destruct v; try (intros [= <-]; by eauto);
    (destruct (py_float _) as [[]|x]; try done; intros [= <-]; by eauto).
Qed.

(** The rows that a run adds to the table. *)
Lemma ingest_added (w : world) t :
  exists k, (ingest w t).1.1 = t ++ k /\
    forall r, r ∈ k ->
      exists registry, ingest_registry w = Some registry /\ built_for registry r.
Proof.
  rewrite ingest_table. destruct (ingest_registry w) as [registry|].
  - destruct (process_sensors_added (built_for registry) w (conn_open t) registry)
      as (k & Hk & HP).
    + intros [sensor d] r Hin (it & _ & (ts & m & _ & ->)%normalize_appended)%batch_of_elem.
      split; [done|]. by exists d.
    + exists []. by rewrite app_nil_r.
    + exists k. split; [done|]. intros r Hr. exists registry. split; [done|].
      by apply (proj1 (Forall_forall _ _) HP).
  - exists []. split; [by rewrite app_nil_r|]. by intros r ?%elem_of_nil.
Qed.

(** X3.  Every row that a run adds to the table carries the configured
    device as its [box_id], the id of a sensor of the registry, and the
    unit, type and icon that the registry holds for that sensor; the
    rows of other devices are left exactly as they were. *)
Theorem ingestion_writes_own_box (w : world) t :
  exists added,
    final_table (run w t) = t ++ added /\
    (forall r, r ∈ added ->
       exists registry, ingest_registry w = Some registry /\ built_for registry r) /\
    List.filter other_box (final_table (run w t)) = List.filter other_box t.
Proof.
  rewrite final_table_run. destruct (ingest_added w t) as (k & Hk & HP).
  exists k. split; [done|]. split; [done|].
  rewrite Hk, List.filter_app.
  assert (List.filter other_box k = []) as ->; [|by rewrite app_nil_r].
  clear Hk. induction k as [|r k IH]; [done|]. simpl.
  destruct (HP r) as (registry & _ & Hbox & _); [apply list_elem_of_here|].
  unfold other_box at 1. rewrite Hbox, String.eqb_refl. simpl.
  apply IH. intros r' ?. apply HP. by apply list_elem_of_further.
Qed.

Lemma insert_row_distinct t r : keys_distinct t -> keys_distinct (insert_row t r).
Proof.
  unfold keys_distinct, insert_row. intros Ht.
  destruct (existsb (conflicts r) t) eqn:He; [done|].
  apply StronglySorted_app_2; [|done|repeat constructor].
  intros x1 x2 Hx1 Hx2. apply list_elem_of_singleton in Hx2. subst x2.
  destruct (conflicts r x1) eqn:Hc; [|done].
  assert (existsb (conflicts r) t = true) as Htrue; [|by rewrite Htrue in He].
  apply existsb_exists. exists x1. split; [by apply list_elem_of_In|done].
Qed.

Lemma executemany_distinct t batch :
  keys_distinct t -> keys_distinct (executemany t batch).
Proof.
  revert t. induction batch as [|r batch IH]; intros t Ht; simpl; [done|].
  by apply IH, insert_row_distinct.
Qed.

Lemma keys_distinct_prefix t t' :
  t `prefix_of` t' -> keys_distinct t' -> keys_distinct t.
Proof. intros [k ->]. apply StronglySorted_app_1_l. Qed.

Lemma process_sensor_distinct (w : world) c sd :
  conn_ok c -> keys_distinct (working c) ->
  keys_distinct (working (process_sensor w c sd).1).
Proof.
  intros Hok Hc. destruct sd as [sensor d]. unfold process_sensor.
  destruct (series_response w sensor) as [|[|it data]|]; try done.
  destruct (collect sensor d (it :: data) [] []) as [out [e|batch]]; [done|].
  unfold insert_batch. destruct batch as [|r batch]; [done|].
  destruct (db_insert w sensor);
    cbn [fst committed working conn_commit conn_execute conn_rollback].
  - by apply (executemany_distinct (working c) (r :: batch)).
  - by apply executemany_distinct.
  - by eapply keys_distinct_prefix.
Qed.

Lemma process_sensors_distinct (w : world) c registry :
  conn_ok c -> keys_distinct (working c) ->
  keys_distinct (working (process_sensors w c registry).1).
Proof.
  revert c. induction registry as [|sd registry IH]; intros c Hok Hc; [done|].
  simpl. pose proof (process_sensor_ok w c sd Hok) as Hok1.
  pose proof (process_sensor_distinct w c sd Hok Hc) as Hc1.
  destruct (process_sensor w c sd) as [c1 out1]. simpl in *.
  specialize (IH c1 Hok1 Hc1).
  by destruct (process_sensors w c1 registry) as [c2 out2].
Qed.

(** X2.  The ingestion keeps the unique constraint on
    [(timestamp, box_id, sensor_id)]: when no row of the table has the
    key of a row before it, the same holds of the table after the run,
    whatever the series hold and whichever database calls fail. *)
Theorem ingestion_keeps_keys_distinct (w : world) t :
  keys_distinct t -> keys_distinct (final_table (run w t)).
Proof.
  intros Ht. rewrite final_table_run, ingest_table.
  destruct (ingest_registry w) as [registry|]; [|done].
  pose proof (process_sensors_ok w (conn_open t) registry (conn_open_ok t)) as Hok.
  pose proof (process_sensors_distinct w (conn_open t) registry
                (conn_open_ok t) Ht) as Hd.
  by eapply keys_distinct_prefix.
Qed.

Lemma process_sensor_quiet (w : world) c sensor d :
  (forall n, Inserted n sensor ∉ (process_sensor w c (sensor, d)).2) ->
  committed (process_sensor w c (sensor, d)).1 = committed c.
Proof.
  unfold process_sensor.
  destruct (series_response w sensor) as [|[|it data]|]; try done.
  destruct (collect sensor d (it :: data) [] []) as [out [e|batch]]; [done|].
  unfold insert_batch. destruct batch as [|r batch]; [done|].
  destruct (db_insert w sensor); try done.
  intros Hno. exfalso. apply (Hno (length (r :: batch))). cbn [snd].
  apply list_elem_of_further, elem_of_app. right. apply list_elem_of_here.
Qed.

Lemma process_sensors_quiet (w : world) c registry :
  (forall n sensor, Inserted n sensor ∉ (process_sensors w c registry).2) ->
  committed (process_sensors w c registry).1 = committed c.
Proof.
  revert c. induction registry as [|[sensor d] registry IH]; intros c; [done|].
  simpl. pose proof (process_sensor_quiet w c sensor d) as H1.
  destruct (process_sensor w c (sensor, d)) as [c1 out1]. simpl in *.
  specialize (IH c1).
  destruct (process_sensors w c1 registry) as [c2 out2]. simpl in *.
  intros Hno. rewrite IH, H1; [done| |].
  - intros n Hin. apply (Hno n sensor). apply elem_of_app. by left.
  - intros n s Hin. apply (Hno n s). apply elem_of_app. by right.
Qed.

(** X11.  The table changes only where line 93 is reached: when a run
    prints no "Inserted ... records" line, the table after the run is
    the table before it. *)
Theorem no_insert_line_no_change (w : world) t :
  (forall n sensor, Inserted n sensor ∉ printed (run w t)) ->
  final_table (run w t) = t.
Proof.
  intros Hno. rewrite final_table_run.
  assert (forall n sensor, Inserted n sensor ∉ (ingest w t).1.2) as Hno'.
  { intros n s Hin. apply (Hno n s). by apply printed_run. }
  clear Hno. revert Hno'. unfold ingest.
  destruct (db_connect w); [|done]. simpl.
  destruct (metadata_response w) as [|m|]; [done| |done].
  destruct (metadata_sensors m) as [sensors|]; [|done].
  pose proof (process_sensors_quiet w (conn_open t) (sensor_details sensors)) as Hq.
  destruct (process_sensors w (conn_open t) (sensor_details sensors)) as [c out].
  simpl in *. intros Hno. apply Hq. intros n s Hin. apply (Hno n s).
  do 2 apply list_elem_of_further. apply elem_of_app. by left.
Qed.

Lemma process_sensors_out_indep (w : world) c c' registry :
  (process_sensors w c registry).2 = (process_sensors w c' registry).2.
Proof.
  revert c c'. induction registry as [|sd registry IH]; intros c c'; [done|].
  simpl. pose proof (process_sensor_out w c c' sd) as H1.
  destruct (process_sensor w c sd) as [c1 out1].
  destruct (process_sensor w c' sd) as [c1' out1']. simpl in H1. subst out1'.
  specialize (IH c1 c1').
  destruct (process_sensors w c1 registry) as [c2 out2].
  destruct (process_sensors w c1' registry) as [c2' out2']. simpl in *.
  by rewrite IH.
Qed.

(** X6.  What the ingestion prints, and how it ends, does not depend on
    what the table holds: the count of line 93 is the number of tuples
    handed to [executemany], not the number of rows that the insert
    added. *)
Theorem ingestion_lines_ignore_table (w : world) t t' :
  (ingest w t).1.2 = (ingest w t').1.2 /\
  (ingest w t).2 = (ingest w t').2 /\
  exit_code (run w t) = exit_code (run w t').
Proof.
  assert ((ingest w t).1.2 = (ingest w t').1.2 /\ (ingest w t).2 = (ingest w t').2)
    as [Hout Hend].
  { unfold ingest. destruct (db_connect w); [|done]. simpl.
    destruct (metadata_response w) as [|m|]; [done| |done].
    destruct (metadata_sensors m) as [sensors|]; [|done].
    pose proof (process_sensors_out_indep w (conn_open t) (conn_open t')
                  (sensor_details sensors)) as Hi.
    destruct (process_sensors w (conn_open t) (sensor_details sensors)).
    destruct (process_sensors w (conn_open t') (sensor_details sensors)).
    simpl in *. by subst. }
  split; [done|]. split; [done|]. unfold run.
  destruct (ingest w t) as [[t1 out1] e1], (ingest w t') as [[t1' out1'] e1'].
  simpl in *. subst e1'. destruct e1; [|done].
  destruct (read_frame w t1) as [df o], (read_frame w t1') as [df' o'].
  by destruct (make_graphs df) as [[?|] ?], (make_graphs df') as [[?|] ?].
Qed.

End StoreInvariants.

Section ControlFlow.

Context `{setting : Setting}.

#[local] Arguments process_sensor : simpl never.

Lemma omap_all_none {A B : Type} (f : A -> option B) (l : list A) :
  (forall x, x ∈ l -> f x = None) -> omap f l = [].
Proof.
  induction l as [|x l IH]; intros Hl; [done|]. simpl.
  rewrite (Hl x) by apply list_elem_of_here.
  apply IH. intros y ?. apply Hl. by apply list_elem_of_further.
Qed.

(** The lines of one sensor: the announcement of line 52, then lines
    that are none. *)
Lemma process_sensor_lines (w : world) c sensor d :
  exists out,
    (process_sensor w c (sensor, d)).2 = FetchingSensor sensor (d_type d) :: out /\
    forall e, e ∈ out -> of_sensor_loop e = true /\ fetched e = None.
Proof.
  unfold process_sensor.
  destruct (series_response w sensor) as [|[|it data]|].
  - eexists. split; [done|]. by intros e ->%list_elem_of_singleton.
  - eexists. split; [done|]. by intros e ->%list_elem_of_singleton.
  - destruct (collect sensor d (it :: data) [] []) as [out res] eqn:Hc.
    assert (forall e, e ∈ out -> of_sensor_loop e = true /\ fetched e = None)
      as Hout.
    { intros e He. destruct (collect_out _ _ _ _ _ _ _ _ Hc He)
        as [?%elem_of_nil|(v & ts & ->)]; done. }
    destruct res as [e|batch].
    + eexists. split; [done|].
      intros e' [?| ->%list_elem_of_singleton]%elem_of_app; auto.
    + unfold insert_batch.
      destruct batch as [|r batch]; [|destruct (db_insert w sensor)];
        (eexists; split; [done|]);
        intros e' [?| ->%list_elem_of_singleton]%elem_of_app; auto.
  - eexists. split; [done|]. by intros e ->%list_elem_of_singleton.
Qed.

Lemma process_sensors_lines (w : world) c registry :
  omap fetched (process_sensors w c registry).2 = registry.*1 /\
  forall e, e ∈ (process_sensors w c registry).2 -> of_sensor_loop e = true.
Proof.
  revert c. induction registry as [|[sensor d] registry IH]; intros c.
  - split; [done|]. by intros e ?%elem_of_nil.
  - simpl. destruct (process_sensor_lines w c sensor d) as (out & Hout & Hnone).
    destruct (process_sensor w c (sensor, d)) as [c1 out1]. simpl in Hout.
    subst out1. destruct (IH c1) as [Hfetched Hloop].
    destruct (process_sensors w c1 registry) as [c2 out2]. simpl in *.
    split.
    + rewrite omap_app, Hfetched, omap_all_none; [done|]. intros e He.
      by apply Hnone.
    + intros e [->|[He|He]%elem_of_app]%elem_of_cons; [done| |by apply Hloop].
      by apply Hnone.
Qed.

Lemma presentation_not_fetched e : of_presentation e = true -> fetched e = None.
Proof. by destruct e. Qed.

(** X5.  Every sensor of the registry is fetched, once, in the order of
    the registry, whatever happens to the sensors before it: the
    announcements of line 52, read off the printed lines, are the keys
    of the registry; when the ingestion ends the process, none is
    printed. *)
Theorem every_sensor_fetched_once (w : world) t :
  omap fetched (printed (run w t)) =
    match ingest_registry w with
    | Some registry => registry.*1
    | None => []
    end.
Proof.
  unfold run, ingest, ingest_registry.
  destruct (db_connect w); [|done]. simpl.
  destruct (metadata_response w) as [|m|]; [done| |done].
  destruct (metadata_sensors m) as [sensors|]; [|done]. simpl.
  destruct (process_sensors_lines w (conn_open t) (sensor_details sensors))
    as [Hfetched _].
  destruct (process_sensors w (conn_open t) (sensor_details sensors))
    as [c out]. simpl in Hfetched.
  pose proof (read_frame_out w (committed c)) as Hr.
  destruct (read_frame w (committed c)) as [df out_read].
  pose proof (make_graphs_out df) as Hg.
  assert (omap fetched (out ++ [LoadComplete; InsertConnClosed])
            = (sensor_details sensors).*1) as Hingest.
  { rewrite omap_app, Hfetched. simpl. by rewrite app_nil_r. }
  destruct (make_graphs df) as [[graphs|] out_graphs]; simpl in *;
    rewrite !omap_app, Hfetched;
    rewrite (omap_all_none fetched out_read), (omap_all_none fetched out_graphs);
    try (simpl; by rewrite !app_nil_r);
    try (intros e He; by apply presentation_not_fetched, Hg);
    intros e He; by apply presentation_not_fetched, Hr.
Qed.

Lemma exit_lines (l : list event) :
  forallb (fun e => negb (of_sensor_loop e) && negb (of_presentation e)) l = true ->
  forall e, e ∈ l -> of_sensor_loop e = false /\ of_presentation e = false.
Proof.
  intros Hl e He%list_elem_of_In. apply (proj1 (forallb_forall _ _) Hl) in He.
  by apply andb_true_iff in He as [?%negb_true_iff ?%negb_true_iff].
Qed.


Lemma make_graphs_of_graphs df e : e ∈ (make_graphs df).2 -> of_graphs e = true.
Proof.
  assert (forall ids, e ∈ (sensor_graphs (clean df) ids).2 -> of_graphs e = true)
    as Hids.
  { induction ids as [|sensor ids IH]; simpl; [by intros ?%elem_of_nil|].
    destruct (sensor_graphs (clean df) ids) as [graphs out].
    destruct (rows_of (clean df) sensor) as [|first rest]; simpl in *.
    - intros [->|?]%elem_of_cons; auto.
    - destruct (sensor_figure (first :: rest) first sensor); simpl; [done|].
      by intros ?%elem_of_nil. }
  unfold make_graphs. destruct df as [|r df].
  - by intros ->%list_elem_of_singleton.
  - specialize (Hids (unique (f_sensor_id <$> clean (r :: df)))).
    destruct (sensor_graphs _ _) as [graphs out]. cbn [snd] in *.
    intros [->|?]%elem_of_cons; auto.
Qed.

(** X9.  A database connection that was opened is closed on every path:
    the "connection (insert) closed" line of the [finally] of line 115
    is printed exactly when the insert connection was opened, also when
    the process ends itself; the "connection (read) closed" line exactly
    when the process reached the dashboard and the read connection was
    opened. *)
Theorem opened_connections_are_closed (w : world) t :
  (InsertConnClosed ∈ printed (run w t) <-> db_connect w = true) /\
  (ReadConnClosed ∈ printed (run w t) <->
     exit_code (run w t) = None /\ db_read w <> ReadConnectError).
Proof.
  assert (forall l : list event,
            forallb (fun e => negb (of_sensor_loop e) && negb (of_presentation e)) l
              = true ->
            ReadConnClosed ∉ l) as Hexit.
  { intros l Hl He. by destruct (exit_lines l Hl _ He). }
  unfold run, ingest.
  destruct (db_connect w); simpl.
  - destruct (metadata_response w) as [|m|]; simpl.
    + split; [|split; [by intros ?%Hexit|by intros [? _]]].
      split; [done|]. intros _. do 3 apply list_elem_of_further.
      apply list_elem_of_here.
    + destruct (metadata_sensors m) as [sensors|]; simpl.
      * destruct (process_sensors_lines w (conn_open t) (sensor_details sensors))
          as [_ Hloop].
        destruct (process_sensors w (conn_open t) (sensor_details sensors))
          as [c out]. simpl in Hloop.
        pose proof (make_graphs_of_graphs (read_frame w (committed c)).1) as Hg.
        unfold read_frame in *.
        destruct (db_read w);
          destruct (make_graphs _) as [[graphs|] out_graphs]; simpl in *.
        1,2,5,6:
          (split;
             [split; [done|]; intros _; do 2 apply list_elem_of_further;
              apply elem_of_app; left; apply elem_of_app; right;
              apply list_elem_of_further, list_elem_of_here
             |split; [done|]; intros _; do 2 apply list_elem_of_further;
              apply elem_of_app; right; do 2 apply list_elem_of_further;
              apply list_elem_of_here]).
        all: split;
          [split; [done|]; intros _; do 2 apply list_elem_of_further;
           apply elem_of_app; left; apply elem_of_app; right;
           apply list_elem_of_further, list_elem_of_here|].
        all: split; [|by intros [_ ?]]; intros He; exfalso.
        all: repeat (apply elem_of_cons in He as [?|He]; [done|]).
        all: apply elem_of_app in He as [He|He].
        all: try (apply elem_of_app in He as [He|He]; [by apply Hloop in He|];
                  repeat (apply elem_of_cons in He as [?|He]; [done|]);
                  by apply elem_of_nil in He).
        all: apply elem_of_cons in He as [?|He]; [done|]; by apply Hg in He.
      * split; [|split; [by intros ?%Hexit|by intros [? _]]].
        split; [done|]. intros _. do 3 apply list_elem_of_further.
        apply list_elem_of_here.
    + split; [|split; [by intros ?%Hexit|by intros [? _]]].
      split; [done|]. intros _. do 3 apply list_elem_of_further.
      apply list_elem_of_here.
  - split; [|split; [by intros ?%Hexit|by intros [? _]]].
    split; [|done]. intros He.
    repeat (apply elem_of_cons in He as [?|He]; [done|]).
    by apply elem_of_nil in He.
Qed.

End ControlFlow.

Section Overflow.

Context `{setting : Setting}.

#[local] Arguments process_sensor : simpl never.

Lemma normalize_overflow sensor d it ts n :
  createdAt it = Some ts -> value it = Some (JInt n) -> float_of_int n = None ->
  normalize sensor d it = PointRaised OverflowError.
Proof. unfold normalize. intros -> -> Hn. simpl. by rewrite Hn. Qed.

(** A point that raises ends the loop of line 66, wherever it stands. *)
Lemma collect_raises sensor d data acc out it e :
  it ∈ data -> normalize sensor d it = PointRaised e ->
  exists out' e', collect sensor d data acc out = (out', inl e').
Proof.
  revert acc out. induction data as [|it0 data IH]; intros acc out Hin Hn.
  - by apply elem_of_nil in Hin.
  - simpl. apply elem_of_cons in Hin as [<-|Hin].
    + rewrite Hn. by eauto.
    + destruct (normalize sensor d it0); eauto.
Qed.

(** X10.  An integer value that [float()] cannot take (OverflowError) is
    not caught at line 81: it ends the loop over the sensor's points, so
    that the whole sensor is given up.  A warning is printed for the
    sensor at line 102, no "Inserted" line is printed for it, and no row
    of that sensor is added to the table, not even for the valid points
    of its series. *)
Theorem unconvertible_value_skips_sensor (w : world) t m sensors sensor d data
    it ts n :
  db_connect w = true ->
  metadata_response w = Body m ->
  metadata_sensors m = Some sensors ->
  (sensor, d) ∈ sensor_details sensors ->
  series_response w sensor = Body data ->
  it ∈ data ->
  createdAt it = Some ts ->
  value it = Some (JInt n) ->
  float_of_int n = None ->
  WarnUnexpected sensor ∈ printed (run w t) /\
  (forall k, Inserted k sensor ∉ printed (run w t)) /\
  exists added,
    final_table (run w t) = t ++ added /\
    forall r, r ∈ added -> r_sensor_id r <> sensor.
Proof.
  intros Hc Hm Hs Hin Hdata Hit Hts Hv Hn.
  pose proof (ingest_completed w t m sensors Hc Hm Hs) as Hi.
  assert (NoDup (sensor_details sensors).*1) as Hnodup.
  { rewrite sensor_details_fold. apply registry_fold_NoDup. constructor. }
  destruct (collect_raises sensor d data [] [] it OverflowError Hit
              (normalize_overflow sensor d it ts n Hts Hv Hn))
    as (out & e & Hcol).
  assert (forall c, (process_sensor w c (sensor, d)).2 =
            FetchingSensor sensor (d_type d) :: out ++ [WarnUnexpected sensor])
    as Hstep.
  { intros c. unfold process_sensor. rewrite Hdata.
    destruct data as [|it0 data]; [by apply elem_of_nil in Hit|].
    by rewrite Hcol. }
  split; [|split].
  - apply printed_run. rewrite Hi. cbn [fst snd].
    apply elem_of_app; right. apply elem_of_app; left.
    apply (process_sensors_out w (conn_open t) _ (sensor, d)); [done|].
    rewrite Hstep. apply list_elem_of_further, elem_of_app. right.
    apply list_elem_of_here.
  - intros k Hk. apply printed_run_inv in Hk; [|done].
    rewrite Hi in Hk. cbn [fst snd] in Hk.
    apply elem_of_app in Hk as [Hk|Hk].
    { repeat (apply elem_of_cons in Hk as [?|Hk]; [done|]).
      by apply elem_of_nil in Hk. }
    apply elem_of_app in Hk as [Hk|Hk].
    2:{ repeat (apply elem_of_cons in Hk as [?|Hk]; [done|]).
        by apply elem_of_nil in Hk. }
    apply process_sensors_out_inv in Hk as ([s' d'] & Hsd & Hk).
    pose proof Hk as [-> _]%process_sensor_inserted.
    assert (d' = d) as -> by (by eapply keys_functional).
    rewrite Hstep in Hk.
    apply elem_of_cons in Hk as [?|Hk]; [done|].
    apply elem_of_app in Hk as [Hk|Hk].
    + destruct (collect_out _ _ _ _ _ _ _ _ Hcol Hk)
        as [?%elem_of_nil|(? & ? & ?)]; done.
    + by apply list_elem_of_singleton in Hk.
  - rewrite final_table_run, Hi. cbn [fst].
    destruct (process_sensors_added (fun r => r_sensor_id r <> sensor) w
                (conn_open t) (sensor_details sensors)) as (k & Hk & HP).
    + intros [s' d'] r Hsd Hr. destruct (decide (s' = sensor)) as [->|Hne].
      * assert (d' = d) as -> by (by eapply keys_functional).
        unfold batch_of in Hr. cbn [fst snd] in Hr.
        rewrite Hdata, Hcol in Hr. by apply elem_of_nil in Hr.
      * apply batch_of_elem in Hr
          as (it' & _ & (ts' & m' & _ & ->)%normalize_appended). done.
    + exists []. by rewrite app_nil_r.
    + exists k. split; [done|]. by apply Forall_forall.
Qed.

(** X12.  Two sensors of the device are never fetched from the same
    address: the address built at lines 53 to 56 determines the sensor
    id. *)
Theorem data_url_determines_sensor (s1 s2 : string) :
  data_url s1 = data_url s2 -> s1 = s2.
Proof.
  unfold data_url. intros H.
  repeat apply (inj (String.app _)) in H. done.
Qed.

End Overflow.

Section EarlyFailure.

Context `{setting : Setting}.

#[local] Arguments process_sensor : simpl never.

Lemma ingest_registry_some (w : world) registry :
  ingest_registry w = Some registry ->
  exists m sensors,
    db_connect w = true /\ metadata_response w = Body m /\
    metadata_sensors m = Some sensors /\ registry = sensor_details sensors.
Proof.
  unfold ingest_registry. destruct (db_connect w); [|done].
  destruct (metadata_response w) as [|m|]; [done| |done].
  destruct (metadata_sensors m) as [sensors|] eqn:Hs; [|done].
  simpl. intros [= <-]. by exists m, sensors.
Qed.

Lemma fails_early_lines (w : world) c sensor d :
  fails_early w sensor d ->
  (WarnRequest sensor ∈ (process_sensor w c (sensor, d)).2 \/
   WarnUnexpected sensor ∈ (process_sensor w c (sensor, d)).2) /\
  (forall n s, Inserted n s ∉ (process_sensor w c (sensor, d)).2) /\
  batch_of w (sensor, d) = [].
Proof.
  unfold fails_early, process_sensor, batch_of. cbn [fst snd].
  destruct (series_response w sensor) as [|data|].
  - intros _. split; [left; apply list_elem_of_further, list_elem_of_here|].
    split; [|done]. intros n s Hin.
    repeat (apply elem_of_cons in Hin as [?|Hin]; [done|]).
    by apply elem_of_nil in Hin.
  - destruct (collect sensor d data [] []) as [out [e|batch]] eqn:Hcol; [|done].
    intros _. destruct data as [|it data]; [done|].
    split; [|split; [|done]].
    + right. apply list_elem_of_further, elem_of_app. right.
      apply list_elem_of_here.
    + intros n s [?|[Hin|?%list_elem_of_singleton]%elem_of_app]%elem_of_cons;
        try done.
      destruct (collect_out _ _ _ _ _ _ _ _ Hcol Hin)
        as [?%elem_of_nil|(? & ? & ?)]; done.
  - intros _. split; [right; apply list_elem_of_further, list_elem_of_here|].
    split; [|done]. intros n s Hin.
    repeat (apply elem_of_cons in Hin as [?|Hin]; [done|]).
    by apply elem_of_nil in Hin.
Qed.

Lemma succeeds_inserted (w : world) c sensor d :
  batch_of w (sensor, d) <> [] ->
  db_insert w sensor = DbOk ->
  Inserted (length (batch_of w (sensor, d))) sensor
    ∈ (process_sensor w c (sensor, d)).2.
Proof.
  unfold batch_of, process_sensor. cbn [fst snd].
  destruct (series_response w sensor) as [|[|it data]|]; try done.
  destruct (collect sensor d (it :: data) [] []) as [out [e|batch]]; [done|].
  intros Hb Hdb. unfold insert_batch. destruct batch as [|r batch]; [done|].
  rewrite Hdb. cbn [snd]. apply elem_of_cons; right. apply elem_of_app; right.
  by apply list_elem_of_singleton.
Qed.

Lemma batch_of_held (w : world) c registry sensor d r :
  conn_ok c ->
  (sensor, d) ∈ registry ->
  db_insert w sensor = DbOk ->
  r ∈ batch_of w (sensor, d) ->
  held (committed (process_sensors w c registry).1) r.
Proof.
  intros Hc Hin Hdb. unfold batch_of. cbn [fst snd].
  destruct (series_response w sensor) as [|data|] eqn:Hs;
    [by intros ?%elem_of_nil| |by intros ?%elem_of_nil].
  destruct (collect sensor d data [] []) as [out [e|batch]] eqn:Hcol;
    [by intros ?%elem_of_nil|].
  intros Hr. by eapply process_sensors_held.
Qed.


End EarlyFailure.

Section PanelData.

Context `{setting : Setting}.

Hypothesis text_leb_total : forall a b, text_leb a b = true \/ text_leb b a = true.
Hypothesis text_leb_trans :
  forall a b c, text_leb a b = true -> text_leb b c = true -> text_leb a c = true.
Hypothesis ts_leb_total : forall a b, ts_leb a b = true \/ ts_leb b a = true.
Hypothesis ts_leb_trans :
  forall a b c, ts_leb a b = true -> ts_leb b c = true -> ts_leb a c = true.

Lemma filter_disjoint_perm {A : Type} (p q : A -> bool) (l : list A) :
  (forall x, p x && q x = false) ->
  List.filter p l ++ List.filter q l ≡ₚ List.filter (fun x => p x || q x) l.
Proof.
  intros Hpq. induction l as [|x l IH]; simpl; [done|].
  specialize (Hpq x). destruct (p x), (q x); simpl in *; try done.
  - by constructor.
  - rewrite <- Permutation_middle. by constructor.
Qed.

Lemma filter_all {A : Type} (p : A -> bool) (l : list A) :
  (forall x, x ∈ l -> p x = true) -> List.filter p l = l.
Proof.
  induction l as [|x l IH]; intros Hl; simpl; [done|].
  rewrite (Hl x) by apply list_elem_of_here. f_equal. apply IH.
  intros y ?. apply Hl. by apply list_elem_of_further.
Qed.

Lemma filter_none {A : Type} (p : A -> bool) (l : list A) :
  (forall x, x ∈ l -> p x = false) -> List.filter p l = [].
Proof.
  induction l as [|x l IH]; intros Hl; simpl; [done|].
  rewrite (Hl x) by apply list_elem_of_here. apply IH.
  intros y ?. apply Hl. by apply list_elem_of_further.
Qed.

(** The groups of line 168, taken for distinct ids, share no row and
    together hold the rows of these ids. *)
Lemma rows_of_concat (df : list frame_row) (ids : list string) :
  NoDup ids ->
  concat (rows_of df <$> ids) ≡ₚ
    List.filter (fun r => bool_decide (f_sensor_id r ∈ ids)) df.
Proof.
  induction 1 as [|s ids Hs Hnodup IH]; simpl.
  - rewrite filter_none; [done|]. by intros r _.
  - rewrite IH. unfold rows_of. rewrite filter_disjoint_perm.
    + erewrite List.filter_ext; [done|]. intros r. simpl.
      destruct (String.eqb_spec (f_sensor_id r) s) as [->|Hne]; simpl.
      * symmetry. apply bool_decide_eq_true. apply list_elem_of_here.
      * apply bool_decide_ext. rewrite elem_of_cons. tauto.
    + intros r. destruct (String.eqb_spec (f_sensor_id r) s) as [->|Hne];
        [|done]. simpl. by apply bool_decide_eq_false.
Qed.

Lemma Forall2_elem_r {A B : Type} (P : A -> B -> Prop) l k y :
  Forall2 P l k -> y ∈ k -> exists x, x ∈ l /\ P x y.
Proof.
  induction 1 as [|x y' l k Hxy _ IH]; [by intros ?%elem_of_nil|].
  intros [->|Hin]%elem_of_cons.
  - exists x. split; [apply list_elem_of_here|done].
  - destruct (IH Hin) as (x' & ? & ?). exists x'.
    split; [by apply list_elem_of_further|done].
Qed.

Lemma panels_data (df : list frame_row) ids graphs :
  Forall2 (panel_of df) ids graphs -> fig_data <$> graphs = rows_of df <$> ids.
Proof.
  induction 1 as [|s fig ids graphs (first & rest & Hrows & _ & _ & Hdata & _) _ IH];
    [done|].
  by rewrite !fmap_cons, IH, Hdata, Hrows.
Qed.

Lemma make_graphs_share (df_all : list frame_row) graphs :
  (make_graphs df_all).1 = Some graphs ->
  concat (fig_data <$> graphs) ≡ₚ clean df_all /\
  Forall (fun fig =>
            fig_data fig <> [] /\
            Forall (fun r => exists x, f_measurement r = Some x /\
                                       float_isnan x = false) (fig_data fig))
    graphs.
Proof.
  intros Hp%make_graphs_panels.
  set (df := clean df_all) in *.
  set (ids := unique (f_sensor_id <$> df)) in *.
  assert (concat (fig_data <$> graphs) ≡ₚ df) as Hperm.
  { rewrite (panels_data df ids _ Hp), rows_of_concat by apply NoDup_unique.
    rewrite filter_all; [done|]. intros r Hr. apply bool_decide_eq_true.
    apply elem_of_unique. by apply list_elem_of_fmap_2. }
  split; [done|]. apply Forall_forall. intros fig Hfig.
  destruct (Forall2_elem_r _ _ _ fig Hp Hfig)
    as (s & _ & first & rest & Hrows & _ & _ & Hdata & _).
  split; [by rewrite Hdata|]. apply Forall_forall. intros r Hr.
  rewrite Hdata, <- Hrows in Hr. unfold rows_of in Hr.
  apply elem_of_filter_bool in Hr as [Hr _].
  unfold df, clean in Hr. apply elem_of_filter_bool in Hr as [_ Hr].
  unfold plottable in Hr. destruct (f_measurement r) as [x|]; [|done].
  exists x. split; [done|]. by apply negb_true_iff.
Qed.

(** X7.  When the process serves the dashboard, the panels share out
    the cleaned rows of the frame that was read: every row with a
    numeric measurement is drawn in one panel, the one of its sensor,
    and a panel holds nothing else; a row whose measurement is null or
    NaN is in no panel, and no panel is empty.  The layout is the
    placeholder exactly when no row is left. *)
Theorem panels_share_out_clean_rows (w : world) t t' out children :
  run w t = Serving t' out children ->
  exists graphs,
    children = app_layout graphs /\
    concat (fig_data <$> graphs) ≡ₚ clean (read_frame w t').1 /\
    Forall (fun fig =>
              fig_data fig <> [] /\
              Forall (fun r => exists x, f_measurement r = Some x /\
                                         float_isnan x = false) (fig_data fig))
      graphs /\
    (children = Placeholder "No data available to display graphs." <->
     clean (read_frame w t').1 = []).
Proof.
  intros (out1 & graphs & _ & Hg & _ & ->)%run_serving_inv.
  destruct (make_graphs_share _ _ Hg) as [Hperm Hall].
  exists graphs. split; [done|]. split; [done|]. split; [done|].
  destruct graphs as [|fig graphs]; simpl.
  - split; [intros _|done]. simpl in Hperm. symmetry in Hperm.
    by apply Permutation_nil_r in Hperm.
  - split; [done|]. intros Hnil. rewrite Hnil in Hperm.
    apply Forall_cons in Hall as [[Hne _] _].
    apply Permutation_nil_r in Hperm. simpl in Hperm.
    by apply app_eq_nil in Hperm as [? _].
Qed.

(** X14.  When the process serves the dashboard, the layout holds, for
    the distinct sensor ids of the cleaned frame, in order of first
    appearance, one line chart each: its data are the rows of that
    sensor, its x-axis is labelled "Time", its title holds the id and,
    for a sensor type that is a text, reads "Type: <type> (ID: <id>)"
    with the type of the sensor's first row, and its y-axis label is
    "<type> (<unit>)" for a unit that is not empty and the type alone
    for the empty unit.  No sensor of the frame is without a label. *)
Theorem served_panels_per_sensor (w : world) t t' out children :
  run w t = Serving t' out children ->
  exists graphs,
    children = app_layout graphs /\
    NoDup (unique (f_sensor_id <$> clean (read_frame w t').1)) /\
    (forall s, s ∈ unique (f_sensor_id <$> clean (read_frame w t').1) <->
               exists r, r ∈ clean (read_frame w t').1 /\ f_sensor_id r = s) /\
    Forall2 (panel_of (clean (read_frame w t').1))
      (unique (f_sensor_id <$> clean (read_frame w t').1)) graphs /\
    ~ label_missing (read_frame w t').1.
Proof.
  intros (out1 & graphs & _ & Hg & _ & ->)%run_serving_inv.
  exists graphs. split; [done|]. split; [apply NoDup_unique|].
  split; [|split; [by apply make_graphs_panels|]].
  - intros s. rewrite elem_of_unique, list_elem_of_fmap.
    split; intros (r & ? & ?); by exists r.
  - intros Hl%make_graphs_none. congruence.
Qed.

Lemma text_leb_refl a : text_leb a a = true.
Proof. by destruct (text_leb_total a a). Qed.

Lemma order_le_time (a b : row) :
  order_le a b ->
  r_sensor_id a = r_sensor_id b ->
  time_order (select a) (select b).
Proof.
  unfold order_le, order_leb, then_by, by_sensor_type, by_sensor_id,
    by_timestamp, time_order. simpl.
  intros Hle Hid Hty. rewrite Hid, Hty, !text_leb_refl in Hle. simpl in Hle.
  by apply Is_true_true.
Qed.

Lemma StronglySorted_filter_bool {A : Type} (R : relation A) (f : A -> bool) l :
  StronglySorted R l -> StronglySorted R (List.filter f l).
Proof.
  induction 1 as [|x l _ IH Hx]; simpl; [constructor|].
  destruct (f x); [|done]. constructor; [done|].
  apply Forall_forall. intros y [Hy _]%elem_of_filter_bool.
  by apply (proj1 (Forall_forall _ _) Hx).
Qed.

Lemma StronglySorted_impl_elem {A : Type} (R R' : relation A) l :
  (forall a b, a ∈ l -> b ∈ l -> R a b -> R' a b) ->
  StronglySorted R l -> StronglySorted R' l.
Proof.
  intros HR. induction 1 as [|x l _ IH Hx]; [constructor|].
  constructor.
  - apply IH. intros a b ? ?. apply HR; by apply list_elem_of_further.
  - apply Forall_forall. intros y Hy. apply HR;
      [apply list_elem_of_here|by apply list_elem_of_further|].
    by apply (proj1 (Forall_forall _ _) Hx).
Qed.


End PanelData.

(** * The properties on the example worlds *)

Section Witnesses.

#[local] Existing Instance whole_setting.

Lemma same_text_refl (a : string) : same_instant a a = true.
Proof. apply String.eqb_refl. Qed.

Lemma nulls_last_leb_total a b :
  nulls_last_leb a b = true \/ nulls_last_leb b a = true.
Proof.
  destruct a as [x|], b as [y|]; simpl; auto. apply String.leb_total.
Qed.

Lemma string_leb_trans a b c :
  String.leb a b = true -> String.leb b c = true -> String.leb a c = true.
Proof.
  intros Hab%Is_true_true Hbc%Is_true_true. apply Is_true_true.
  by apply (@transitivity _ String.le _ a b c).
Qed.

Lemma nulls_last_leb_trans a b c :
  nulls_last_leb a b = true -> nulls_last_leb b c = true ->
  nulls_last_leb a c = true.
Proof.
  destruct a as [x|], b as [y|], c as [z|]; simpl; try done.
  apply string_leb_trans.
Qed.

Lemma empty_sensors_no_write_witness :
  db_connect no_sensor_world = true /\
  metadata_response no_sensor_world = Body (MetaObj (Some []) ["name"]) /\
  exit_code (run no_sensor_world []) = None /\
  final_table (run no_sensor_world []) = [].
Proof.
  split; [reflexivity|]. split; [reflexivity|].
  destruct (empty_sensors_no_write no_sensor_world []
              (MetaObj (Some []) ["name"]) eq_refl eq_refl) as [Hempty _].
  destruct (Hempty ["name"] eq_refl) as (_ & Hcode & Htable).
  exact (conj Hcode Htable).
Defined.

(** C1, as the spec states it, fails: the metadata is fetched, its
    [sensors] array is empty, and the process does not exit. *)
Lemma empty_sensors_exit_counterexample :
  db_connect no_sensor_world = true /\
  metadata_response no_sensor_world = Body (MetaObj (Some []) ["name"]) /\
  ~ (exists code, exit_code (run no_sensor_world []) = Some code /\ code <> 0%Z).
Proof.
  split; [reflexivity|]. split; [reflexivity|].
  intros (code & Hcode & _). discriminate Hcode.
Qed.

Lemma database_error_handling_witness :
  db_connect no_database_world = false /\
  run no_database_world [] = Exited 1 [] [StartingLoad; ErrDatabase] /\
  db_insert failing_database_world "s1" <> DbOk /\
  db_read failing_database_world <> ReadOk /\
  exit_code (run failing_database_world []) = None /\
  WarnUnexpected "s1" ∈ printed (run failing_database_world []) /\
  ErrDashboard ∈ printed (run failing_database_world []).
Proof.
  split; [reflexivity|].
  split; [exact (proj1 (database_error_handling no_database_world []) eq_refl)|].
  split; [discriminate|]. split; [discriminate|].
  destruct (proj2 (database_error_handling failing_database_world [])
              two_sensors [temperature_entry; bare_entry]
              eq_refl eq_refl eq_refl) as (Hcode & Hinsert & Hread).
  split; [exact Hcode|]. split.
  - eapply (Hinsert "s1").
    + apply list_elem_of_here.
    + reflexivity.
    + reflexivity.
    + discriminate.
  - apply Hread. discriminate.
Defined.

(** C2, as the spec states it, fails: the commit of a sensor's batch and
    the dashboard's query both raise a database error, both are printed,
    and the process does not end with exit code 1. *)
Lemma database_error_survived_counterexample :
  db_insert failing_database_world "s1" = DbCommitError /\
  db_read failing_database_world = ReadQueryError /\
  WarnUnexpected "s1" ∈ printed (run failing_database_world []) /\
  ErrDashboard ∈ printed (run failing_database_world []) /\
  exit_code (run failing_database_world []) <> Some 1%Z.
Proof.
  split; [reflexivity|]. split; [reflexivity|].
  assert (run failing_database_world [] =
          Serving (final_table (run failing_database_world []))
            [StartingLoad; FetchingMetadata;
             FetchingSensor "s1" (Some "Temperature");
             WarnConvert "s1" (JStr "abc") "2024-01-01T00:02:00Z";
             WarnUnexpected "s1"; FetchingSensor "s2" (Some "unknown");
             Inserted 1 "s2"; LoadComplete; InsertConnClosed;
             FetchingDashboard; ErrDashboard; ReadConnClosed; NoGraphs]
            (Placeholder "No data available to display graphs.")) as ->
    by reflexivity.
  cbn [printed exit_code]. split; [|split].
  - do 4 apply list_elem_of_further. apply list_elem_of_here.
  - do 10 apply list_elem_of_further. apply list_elem_of_here.
  - discriminate.
Qed.

Lemma ingestion_idempotent_witness :
  (forall a, same_instant a a = true) /\
  db_connect two_sensor_world = true /\
  (forall s, db_insert two_sensor_world s = DbOk) /\
  final_table (run two_sensor_world (final_table (run two_sensor_world []))) =
    final_table (run two_sensor_world []) /\
  length (final_table (run two_sensor_world (final_table (run two_sensor_world [])))) =
    length (final_table (run two_sensor_world [])).
Proof.
  split; [exact same_text_refl|]. split; [reflexivity|].
  split; [intros s; reflexivity|].
  destruct (ingestion_idempotent (setting := whole_setting)
              same_text_refl two_sensor_world
              two_sensor_world [] eq_refl (fun _ => eq_refl) eq_refl
              (fun _ => eq_refl)) as (_ & Hsame & Hcount & _).
  exact (conj Hsame Hcount).
Defined.

(** C4 does not hold of the script when the failure of A is a database
    error.  In the world [refused_row_world] the server refuses the
    second tuple of the batch of [s1]; the handler of line 101 prints
    the warning and does not roll back, so the transaction stays in the
    failed state and the [executemany] of [s2] raises in its turn.  The
    fetch of [s2] and the loop over its one valid point succeed, and yet
    only a warning is printed for [s2]: its batch is not inserted, and
    the table holds no row for its tuple. *)
Theorem failed_insert_not_isolated :
  series_response refused_row_world "s2" = Body [good_point] /\
  collect "s2" (entry_details bare_entry) [good_point] [] [] =
    ([], inr [point_row "s2" (entry_details bare_entry)
                "2024-01-01T00:00:00Z" (reading 21)]) /\
  run refused_row_world [] =
    Serving []
      [StartingLoad; FetchingMetadata;
       FetchingSensor "s1" (Some "Temperature"); WarnUnexpected "s1";
       FetchingSensor "s2" (Some "unknown"); WarnUnexpected "s2";
       LoadComplete; InsertConnClosed;
       FetchingDashboard; FetchedRecords 0; ReadConnClosed; NoGraphs]
      (Placeholder "No data available to display graphs.") /\
  ~ held (final_table (run refused_row_world []))
      (point_row "s2" (entry_details bare_entry)
         "2024-01-01T00:00:00Z" (reading 21)).
Proof.
  split; [reflexivity|]. split; [reflexivity|]. split; [reflexivity|].
  assert (final_table (run refused_row_world []) = []) as -> by reflexivity.
  intros [Hin|(r' & Hin & _)]; by apply elem_of_nil in Hin.
Qed.

Lemma rejected_points_witness :
  db_connect two_sensor_world = true /\
  metadata_response two_sensor_world = Body two_sensors /\
  metadata_sensors two_sensors = Some [temperature_entry; bare_entry] /\
  normalize "s1" (entry_details temperature_entry) untimed_point = PointSkipped /\
  normalize "s1" (entry_details temperature_entry) valueless_point = PointSkipped /\
  normalize "s1" (entry_details temperature_entry) text_point =
    PointWarned (WarnConvert "s1" (JStr "abc") "2024-01-01T00:02:00Z") /\
  WarnConvert "s1" (JStr "abc") "2024-01-01T00:02:00Z"
    ∈ printed (run two_sensor_world []) /\
  (forall n, Inserted n "s1" ∈ printed (run two_sensor_world []) -> n = 2).
Proof.
  split; [reflexivity|]. split; [reflexivity|]. split; [reflexivity|].
  destruct (rejected_points two_sensor_world [] two_sensors
              [temperature_entry; bare_entry] eq_refl eq_refl eq_refl)
    as (Hpoint & _ & Hcount).
  split; [exact (proj1 (proj1 (Hpoint _ _ untimed_point) (or_introl eq_refl)))|].
  split; [exact (proj1 (proj1 (Hpoint _ _ valueless_point) (or_intror eq_refl)))|].
  destruct (proj2 (Hpoint "s1" (entry_details temperature_entry) text_point)
              "2024-01-01T00:02:00Z" (JStr "abc") eq_refl eq_refl)
    as (Hn & _ & Hprinted).
  - discriminate.
  - left. reflexivity.
  - split; [exact Hn|]. split.
    + eapply Hprinted.
      * apply list_elem_of_here.
      * reflexivity.
      * do 2 apply list_elem_of_further. apply list_elem_of_here.
      * reflexivity.
    + intros n Hin. destruct (Hcount n "s1" Hin) as (d & data & _ & Hdata & ->).
      injection Hdata as <-. reflexivity.
Defined.

(** C5, as the spec states it, fails: the series holds a point without
    [createdAt] and a point without [value]; both are passed over, and
    no warning is printed during the run. *)
Lemma silent_skip_counterexample :
  series_response lacking_world "s1" =
    Body [untimed_point; valueless_point; good_point] /\
  createdAt untimed_point = None /\
  value valueless_point = None /\
  Inserted 1 "s1" ∈ printed (run lacking_world []) /\
  ~ (exists e, e ∈ printed (run lacking_world []) /\ is_warning e = true).
Proof.
  split; [reflexivity|]. split; [reflexivity|]. split; [reflexivity|].
  assert (printed (run lacking_world []) =
          [StartingLoad; FetchingMetadata;
           FetchingSensor "s1" (Some "Temperature"); Inserted 1 "s1";
           LoadComplete; InsertConnClosed; FetchingDashboard;
           FetchedRecords 1; ReadConnClosed; GeneratingGraphs ["s1"]]) as ->
    by reflexivity.
  split.
  - do 3 apply list_elem_of_further. apply list_elem_of_here.
  - intros (e & Hin & Hwarn).
    repeat (apply elem_of_cons in Hin as [->|Hin]; [discriminate Hwarn|]).
    by apply elem_of_nil in Hin.
Qed.

Lemma null_value_preserved_witness :
  createdAt null_point = Some "2024-01-01T00:01:00Z" /\
  value null_point = Some JNull /\
  normalize "s1" (entry_details temperature_entry) null_point =
    PointAppended (point_row "s1" (entry_details temperature_entry)
                     "2024-01-01T00:01:00Z" None) /\
  held (final_table (run two_sensor_world []))
    (point_row "s1" (entry_details temperature_entry) "2024-01-01T00:01:00Z" None).
Proof.
  split; [reflexivity|]. split; [reflexivity|].
  destruct (null_value_preserved two_sensor_world [] two_sensors
              [temperature_entry; bare_entry]
              "s1" (entry_details temperature_entry)
              [good_point; null_point; text_point; untimed_point; valueless_point]
              null_point "2024-01-01T00:01:00Z")
    as (Hn & _ & _ & Hbatch).
  - reflexivity.
  - reflexivity.
  - reflexivity.
  - apply list_elem_of_here.
  - reflexivity.
  - apply list_elem_of_further, list_elem_of_here.
  - reflexivity.
  - reflexivity.
  - split; [exact Hn|]. eapply Hbatch; reflexivity.
Defined.

Lemma sensor_details_defaults_witness :
  ("s2", entry_details bare_entry) ∈ sensor_details [temperature_entry; bare_entry] /\
  exists s, s ∈ [temperature_entry; bare_entry] /\ s_id s = Some "s2" /\
    (s_sensorType s = None -> d_type (entry_details bare_entry) = Some "unknown") /\
    (s_unit s = None -> d_unit (entry_details bare_entry) = Some "") /\
    (s_icon s = None -> d_icon (entry_details bare_entry) = None).
Proof.
  assert (("s2", entry_details bare_entry)
            ∈ sensor_details [temperature_entry; bare_entry]) as Hin
    by apply list_elem_of_further, list_elem_of_here.
  split; [exact Hin|].
  exact (sensor_details_defaults [temperature_entry; bare_entry] "s2"
           (entry_details bare_entry) Hin).
Defined.

(** C7, as the spec states it, fails: the entry has no [sensorType], and
    the registry holds the text ['unknown'] for it, not the empty
    string. *)
Lemma sensor_type_default_counterexample :
  s_sensorType bare_entry = None /\
  sensor_details [bare_entry] =
    [("s2", Details (Some "unknown") (Some "") None)] /\
  d_type (Details (Some "unknown") (Some "") None) <> Some "".
Proof.
  split; [reflexivity|]. split; [reflexivity|]. discriminate.
Qed.

(** C8 does not hold of the script for a sensor whose type is null and
    whose unit is empty.  In the world [untyped_world] the metadata
    lists [s3] with [sensorType: null] and no unit; its reading is
    stored and remains after cleaning, so [s3] is one of the sensors of
    line 164.  The label that line 173 builds for it is [None], and
    [px.line] raises at line 176: the process dies with status 1 after
    the line of line 165, and no layout is built, neither for [s3] nor
    for [s1]. *)
Theorem unlabelled_sensor_no_layout :
  run untyped_world [] =
    Died
      [point_row "s1" (entry_details temperature_entry)
         "2024-01-01T00:00:00Z" (reading 21);
       point_row "s3" (entry_details untyped_entry)
         "2024-01-01T00:00:00Z" (reading 21)]
      [StartingLoad; FetchingMetadata;
       FetchingSensor "s1" (Some "Temperature"); Inserted 1 "s1";
       FetchingSensor "s3" None; Inserted 1 "s3";
       LoadComplete; InsertConnClosed;
       FetchingDashboard; FetchedRecords 2; ReadConnClosed;
       GeneratingGraphs ["s1"; "s3"]] /\
  status (run untyped_world []) = Some 1%Z /\
  unique (f_sensor_id <$>
            clean (read_frame untyped_world
                     (final_table (run untyped_world []))).1) = ["s1"; "s3"] /\
  (forall t' out children, run untyped_world [] <> Serving t' out children).
Proof.
  split; [reflexivity|]. split; [reflexivity|]. split; [reflexivity|].
  intros t' out children Hrun. discriminate Hrun.
Qed.

Lemma dashboard_query_sorted_witness :
  (forall a b, text_leb a b = true \/ text_leb b a = true) /\
  (forall a b, ts_leb a b = true \/ ts_leb b a = true) /\
  exists rows,
    dashboard_query (final_table (run two_sensor_world [])) = select <$> rows /\
    StronglySorted order_le rows /\
    (forall r, r ∈ rows <->
       r ∈ final_table (run two_sensor_world []) /\ r_box_id r = SENSEBOX_ID).
Proof.
  split; [exact nulls_last_leb_total|]. split; [exact String.leb_total|].
  destruct (dashboard_query_sorted (setting := whole_setting)
              nulls_last_leb_total nulls_last_leb_trans
              String.leb_total string_leb_trans
              (final_table (run two_sensor_world [])))
    as (rows & Hselect & _ & Hrows & Hsorted & _).
  exists rows. exact (conj Hselect (conj Hsorted Hrows)).
Defined.

Lemma entry_without_id_excluded_witness :
  s_id anonymous_entry = None /\
  sensor_details ([temperature_entry] ++ anonymous_entry :: [bare_entry]) =
    sensor_details ([temperature_entry] ++ [bare_entry]) /\
  run (with_metadata two_sensor_world
         (MetaObj (Some ([temperature_entry] ++ anonymous_entry :: [bare_entry]))
            ["name"])) [] =
  run (with_metadata
         (with_metadata two_sensor_world
            (MetaObj (Some ([temperature_entry] ++ anonymous_entry :: [bare_entry]))
               ["name"]))
         (MetaObj (Some ([temperature_entry] ++ [bare_entry])) ["name"])) [].
Proof.
  split; [reflexivity|].
  destruct (entry_without_id_excluded
              (with_metadata two_sensor_world
                 (MetaObj (Some ([temperature_entry] ++ anonymous_entry :: [bare_entry]))
                    ["name"]))
              [] [temperature_entry] anonymous_entry [bare_entry] ["name"]
              eq_refl eq_refl) as (Hregistry & _ & Hrun).
  exact (conj Hregistry Hrun).
Defined.

End Witnesses.

Section FurtherWitnesses.

#[local] Existing Instance whole_setting.

Lemma registry_keys_witness :
  s_id relabelled_entry = Some "s1" /\
  (forall d,
     ("s1", d) ∈ sensor_details [temperature_entry; bare_entry; relabelled_entry] <->
     d = entry_details relabelled_entry).
Proof.
  split; [reflexivity|]. intros d.
  destruct (registry_keys [temperature_entry; bare_entry; relabelled_entry])
    as (_ & _ & Hlast).
  apply (Hlast [temperature_entry; bare_entry] relabelled_entry [] "s1" d).
  - reflexivity.
  - reflexivity.
  - intros s' Hs'. apply elem_of_nil in Hs'. destruct Hs'.
Defined.

Lemma ingestion_keeps_keys_distinct_witness :
  keys_distinct [] /\ keys_distinct (final_table (run two_sensor_world [])).
Proof.
  split; [constructor|].
  apply (ingestion_keeps_keys_distinct two_sensor_world []). constructor.
Defined.



Lemma panels_share_out_clean_rows_witness :
  exists t' out children graphs,
    run two_sensor_world [] = Serving t' out children /\
    children = app_layout graphs /\
    concat (fig_data <$> graphs) ≡ₚ clean (read_frame two_sensor_world t').1.
Proof.
  destruct (run two_sensor_world []) as [code t' out|t' out children|t' out]
    eqn:Hrun; [discriminate Hrun| |discriminate Hrun].
  destruct (panels_share_out_clean_rows two_sensor_world [] t' out children Hrun)
    as (graphs & Hchildren & Hperm & _).
  exists t', out, children, graphs.
  split; [reflexivity|]. split; [exact Hchildren|exact Hperm].
Defined.

Lemma served_panels_per_sensor_witness :
  exists t' out children graphs,
    run two_sensor_world [] = Serving t' out children /\
    children = app_layout graphs /\
    unique (f_sensor_id <$> clean (read_frame two_sensor_world t').1) = ["s1"; "s2"] /\
    Forall2 (panel_of (clean (read_frame two_sensor_world t').1)) ["s1"; "s2"] graphs.
Proof.
  destruct (run two_sensor_world []) as [code t' out|t' out children|t' out]
    eqn:Hrun; [discriminate Hrun| |discriminate Hrun].
  destruct (served_panels_per_sensor two_sensor_world [] t' out children Hrun)
    as (graphs & Hchildren & _ & _ & Hpanels & _).
  injection Hrun as <- <- <-.
  exists (final_table (run two_sensor_world [])), (printed (run two_sensor_world [])),
    (app_layout graphs), graphs.
  split; [|split; [reflexivity|split]].
  - rewrite <- Hchildren. reflexivity.
  - reflexivity.
  - exact Hpanels.
Defined.


Lemma no_insert_line_no_change_witness :
  db_insert lost_connection_world "s1" = DbCommitError /\
  db_insert lost_connection_world "s2" = DbExecuteError 0 /\
  WarnUnexpected "s1" ∈ printed (run lost_connection_world [stored_row]) /\
  (forall n sensor,
     Inserted n sensor ∉ printed (run lost_connection_world [stored_row])) /\
  final_table (run lost_connection_world [stored_row]) = [stored_row].
Proof.
  assert (printed (run lost_connection_world [stored_row]) =
          [StartingLoad; FetchingMetadata;
           FetchingSensor "s1" (Some "Temperature");
           WarnConvert "s1" (JStr "abc") "2024-01-01T00:02:00Z";
           WarnUnexpected "s1";
           FetchingSensor "s2" (Some "unknown"); WarnUnexpected "s2";
           LoadComplete; InsertConnClosed;
           FetchingDashboard; FetchedRecords 1; ReadConnClosed;
           GeneratingGraphs ["s1"]])
    as Hprinted by reflexivity.
  assert (forall n sensor,
            Inserted n sensor ∉ printed (run lost_connection_world [stored_row]))
    as Hquiet.
  { intros n sensor Hin. rewrite Hprinted in Hin.
    repeat (apply elem_of_cons in Hin as [Hin|Hin]; [discriminate Hin|]).
    apply elem_of_nil in Hin. destruct Hin. }
  split; [reflexivity|]. split; [reflexivity|]. split.
  { rewrite Hprinted. do 4 apply list_elem_of_further. apply list_elem_of_here. }
  split; [exact Hquiet|].
  exact (no_insert_line_no_change lost_connection_world [stored_row] Hquiet).
Defined.

Lemma data_url_determines_sensor_witness :
  data_url "s1" = "https://api.opensensemap.org/boxes/box1/data/s1" /\
  (data_url "s1" = data_url "s1" -> "s1" = "s1").
Proof.
  split; [reflexivity|]. exact (data_url_determines_sensor "s1" "s1").
Defined.

End FurtherWitnesses.

Section NarrowWitnesses.

#[local] Existing Instance narrow_setting.

Lemma unconvertible_value_skips_sensor_witness :
  createdAt huge_point = Some "2024-01-01T00:01:00Z" /\
  value huge_point = Some (JInt 1000) /\
  float_of_int 1000 = None /\
  WarnUnexpected "s1" ∈ printed (run overflow_world []) /\
  (forall k, Inserted k "s1" ∉ printed (run overflow_world [])) /\
  exists added,
    final_table (run overflow_world []) = [] ++ added /\
    forall r, r ∈ added -> r_sensor_id r <> "s1".
Proof.
  split; [reflexivity|]. split; [reflexivity|]. split; [reflexivity|].
  apply (unconvertible_value_skips_sensor overflow_world []
           (MetaObj (Some [temperature_entry]) ["name"]) [temperature_entry]
           "s1" (entry_details temperature_entry) [small_point; huge_point]
           huge_point "2024-01-01T00:01:00Z" 1000).
  - reflexivity.
  - reflexivity.
  - reflexivity.
  - apply list_elem_of_here.
  - reflexivity.
  - apply list_elem_of_further, list_elem_of_here.
  - reflexivity.
  - reflexivity.
  - reflexivity.
Defined.

End NarrowWitnesses.
